(** * pdf-text-searcher: a shallow embedding of [pdf-text-searcher.py]

    The program is one Python module gluing three libraries together:
    NLTK (tokenizer, Porter stemmer, WordNet lemmatizer), pypdf (text
    extraction) and Whoosh (index, writer, query parser, searcher).  The
    module's own functions are [normalize_text], [create_or_open_index],
    [index_pdfs], [search_index] and the methods of [PdfSearchApp].

    The libraries are interfaces of the embedding: each is a [Class] whose
    fields are the library calls the module makes.  The module's functions
    are written in a small state-and-exception monad over a [World] that
    holds what the Python code mutates: the index directories on disk, the
    open writer, the messages sent to the status callback, the lists sent
    to the results callback and the state of the two buttons. *)

From Stdlib Require Import String Ascii List Bool Arith Lia.
Import ListNotations.
Local Open Scope string_scope.
Local Open Scope list_scope.

(** ** Python values and exceptions *)

(** Exceptions the module distinguishes: [whoosh.index.EmptyIndexError] is
    caught by name in [search_index] and [create_or_open_index]; every other
    exception is only ever caught as [Exception] and printed. *)
Inductive exn : Type :=
| EmptyIndexError (msg : string)
| OtherException (msg : string).

Inductive Result (A : Type) : Type :=
| Ok (a : A)
| Raise (e : exn).
Arguments Ok {A} a.
Arguments Raise {A} e.

Definition is_EmptyIndexError (e : exn) : bool :=
  match e with
  | EmptyIndexError _ => true
  | OtherException _ => false
  end.

(** ** The index, as [schema] declares it *)

Inductive FieldKind : Type := ID | TEXT.

Record FieldType : Type := mkField {
  kind : FieldKind;
  stored : bool;
  unique : bool
}.

Record Schema : Type := mkSchema {
  schema_path : FieldType;
  schema_filename : FieldType;
  schema_content : FieldType
}.

(** [schema = Schema(path=ID(stored=True, unique=True),
                     filename=TEXT(stored=True), content=TEXT(stored=True))] *)
Definition schema : Schema :=
  {| schema_path := mkField ID true true;
     schema_filename := mkField TEXT true false;
     schema_content := mkField TEXT true false |}.

(** One document: the keyword arguments of [writer.update_document]. *)
Record Document : Type := mkDocument {
  path : string;
  filename : string;
  content : string
}.

(** A committed snapshot of the index: its documents in commit order. *)
Definition Snapshot : Type := list Document.

Definition has_path (p : string) (d : Document) : bool := String.eqb (path d) p.

Definition entries (p : string) (snap : Snapshot) : list Document :=
  filter (has_path p) snap.

(** ** The index writer *)

(** The handle [open_dir] and [create_in] return: the directory it is on. *)
Definition Index : Type := string.

Record Writer : Type := mkWriter {
  writer_index : Index;
  staged : list Document
}.

(** ** Messages to the callbacks *)

(** The keyword flags of [status_callback(message, error=..., success=...)]. *)
Inductive Level : Type := Info | Error | Success.

(** The messages of the module, one constructor per f-string, carrying the
    values the f-string interpolates. *)
Inductive Status : Type :=
| BooksDirNotFound (books_dir : string)
| StartingIndexing
| FoundPdfFiles (total_files : nat) (books_dir : string)
| IndexingFile (i total_files : nat) (fname : string)
| NoTextExtracted (fname : string)
| ErrorIndexing (fname : string) (e : exn)
| Committing (indexed_files : nat)
| IndexingComplete (indexed_files error_files : nat)
| FatalIndexingError (e : exn)
| IndexEmptyOrNotFound
| RunningQuery (query_string : string)
| FoundResults (n : nat)
| ErrorDuringSearch (e : exn)
| PleaseEnterQuery
| StartingSearch
| StartingIndexingProcess.

(** ** The world the module acts on *)

(** One entry of [results_list]. [Score] is Whoosh's float, kept abstract. *)
Record SearchResult (Score : Type) : Type := mkSearchResult {
  res_filename : string;
  res_path : string;
  res_score : Score;
  res_highlight : string
}.
Arguments mkSearchResult {Score}.
Arguments res_filename {Score}.
Arguments res_path {Score}.
Arguments res_score {Score}.
Arguments res_highlight {Score}.

Section World.

Variable Score : Type.

Record World : Type := mkWorld {
  (** every index directory: [None] when no index was ever created there *)
  index_store : string -> option Snapshot;
  (** the open writer session, if any, with the documents it has staged *)
  writer : option Writer;
  (** the calls of [status_callback], oldest first *)
  status_log : list (Status * Level);
  (** the calls of [results_callback], oldest first *)
  results_log : list (list (SearchResult Score));
  (** [index_button] and [search_button] are NORMAL (true) or DISABLED *)
  buttons_enabled : bool
}.

(** ** State and exceptions *)

Definition M (A : Type) : Type := World -> Result A * World.

Definition ret {A} (a : A) : M A := fun w => (Ok a, w).

Definition bind {A B} (m : M A) (k : A -> M B) : M B :=
  fun w =>
    match m w with
    | (Ok a, w') => k a w'
    | (Raise e, w') => (Raise e, w')
    end.

Definition raise {A} (e : exn) : M A := fun w => (Raise e, w).

(** [try: m  except Exception as e: h e] *)
Definition try_except {A} (m : M A) (h : exn -> M A) : M A :=
  fun w =>
    match m w with
    | (Ok a, w') => (Ok a, w')
    | (Raise e, w') => h e w'
    end.

(** [try: m  finally: f] *)
Definition try_finally {A} (m : M A) (f : M unit) : M A :=
  fun w =>
    match m w with
    | (r, w') =>
        match f w' with
        | (Ok _, w'') => (r, w'')
        | (Raise e, w'') => (Raise e, w'')
        end
    end.

Definition lift {A} (r : Result A) : M A := fun w => (r, w).

Definition get : M World := fun w => (Ok w, w).
Definition modify (f : World -> World) : M unit := fun w => (Ok tt, f w).

End World.

Arguments mkWorld {Score}.
Arguments index_store {Score}.
Arguments writer {Score}.
Arguments status_log {Score}.
Arguments results_log {Score}.
Arguments buttons_enabled {Score}.
Arguments ret {Score A}.
Arguments bind {Score A B}.
Arguments raise {Score A}.
Arguments try_except {Score A}.
Arguments try_finally {Score A}.
Arguments lift {Score A}.
Arguments get {Score}.
Arguments modify {Score}.

Declare Scope py_scope.
Delimit Scope py_scope with py.
Notation "x <- m ;; k" := (bind m (fun x => k))
  (at level 61, m at next level, right associativity) : py_scope.
Notation "m ;; k" := (bind m (fun _ => k))
  (at level 61, right associativity) : py_scope.
Local Open Scope py_scope.

(** ** The libraries *)

(** NLTK, as [normalize_text] calls it. *)
Class Nltk : Type := {
  word_tokenize : string -> list string;
  (** [PorterStemmer().stem] *)
  stem : string -> string;
  (** [WordNetLemmatizer().lemmatize] *)
  lemmatize : string -> string
}.

(** Python's [str.lower] and the [os] calls of [index_pdfs]. *)
Class Python : Type := {
  lower : string -> string;
  isdir : string -> bool;
  listdir : string -> Result (list string);
  path_join : string -> string -> string
}.

(** pypdf: [PdfReader(full_path)] raises or gives the pages; on each page
    [extract_text()] raises or gives a string ([None] on some versions). *)
Class PyPdf : Type := {
  PdfReader : string -> Result (list (Result (option string)))
}.

(** One hit of [searcher.search]: the stored fields, [hit.score], and what
    [hit.highlights("content", top=1)] gives. *)
Record Hit (Score : Type) : Type := mkHit {
  hit_fields : Document;
  hit_score : Score;
  hit_highlights : Result string
}.
Arguments mkHit {Score}.
Arguments hit_fields {Score}.
Arguments hit_score {Score}.
Arguments hit_highlights {Score}.

(** Whoosh, the parts the module only calls: query parsing and search, and
    the two places where the storage can fail while a writer is open. *)
Class Whoosh (Score : Type) : Type := {
  Query : Type;
  (** [QueryParser("content", schema=ix.schema).parse] *)
  parse : string -> Result Query;
  (** [searcher.search(query, limit=...)]: [len(results)] and the hits *)
  search : Snapshot -> Query -> nat -> Result (nat * list (Hit Score));
  (** staging a document does not succeed: the exception [update_document]
      raises for it *)
  update_error : Document -> option exn;
  (** merging a staged document at commit does not succeed *)
  merge_error : Document -> option exn
}.

(** ** Strings *)

Definition newline : string := String (ascii_of_nat 10) EmptyString.

(** Python truthiness of a [str]. *)
Definition nonempty (s : string) : bool :=
  match s with
  | EmptyString => false
  | String _ _ => true
  end.

(** [s.endswith(suffix)] *)
Definition endswith (s suffix : string) : bool :=
  (String.length suffix <=? String.length s)%nat &&
  String.eqb (substring (String.length s - String.length suffix)
                        (String.length suffix) s) suffix.

(** The characters [str.strip()] removes, within ASCII. *)
Definition is_space (c : ascii) : bool :=
  let n := nat_of_ascii c in
  ((9 <=? n) && (n <=? 13) || (28 <=? n) && (n <=? 32))%nat.






(** ** The module *)

Definition BOOKS_DIR : string := "D:\books".
Definition INDEX_DIR : string := "whoosh_index".

Section PdfTextSearcher.

Context {Score : Type} {nltk : Nltk} {python : Python} {pypdf : PyPdf}
        {whoosh : Whoosh Score}.

Local Abbreviation World := (World Score).
Local Abbreviation M := (M Score).

(** *** [normalize_text] *)

(** The [for token in tokens] loop, appending to [normalized_tokens]. *)
Fixpoint normalize_loop (tokens normalized_tokens : list string) : list string :=
  match tokens with
  | [] => normalized_tokens
  | token :: rest =>
      let token := lower token in
      let stemmed := stem token in
      let lemma := lemmatize stemmed in
      normalize_loop rest (normalized_tokens ++ [lemma])
  end.

(** [normalized_tokens] when the loop is over. *)
Definition normalize_tokens (text : string) : list string :=
  let tokens := word_tokenize text in
  normalize_loop tokens [].

Definition normalize_text (text : string) : string :=
  String.concat " " (normalize_tokens text).

(** *** The callbacks *)

(** [status_callback(message, error=..., success=...)]; in the application
    it is [PdfSearchApp.update_status]. *)
Definition status_callback (message : Status) (lvl : Level) : M unit :=
  modify (fun w =>
    mkWorld (index_store w) (writer w) (status_log w ++ [(message, lvl)])
            (results_log w) (buttons_enabled w)).

(** [results_callback(results)]; in the application it is
    [PdfSearchApp.display_results]. *)
Definition results_callback (results : list (SearchResult Score)) : M unit :=
  modify (fun w =>
    mkWorld (index_store w) (writer w) (status_log w)
            (results_log w ++ [results]) (buttons_enabled w)).

(** *** Whoosh's index and writer *)

Definition set_index (indexdir : string) (snap : Snapshot) (w : World) : World :=
  mkWorld (fun d => if String.eqb d indexdir then Some snap else index_store w d)
          (writer w) (status_log w) (results_log w) (buttons_enabled w).

Definition set_writer (wr : option Writer) (w : World) : World :=
  mkWorld (index_store w) wr (status_log w) (results_log w) (buttons_enabled w).

(** Modelled from the spec: Whoosh's [open_dir], which is not part of the
    repository.  An index that was never created is unavailable: the call
    raises [EmptyIndexError]; otherwise it gives the handle. *)
Definition open_dir (indexdir : string) : M Index :=
  w <- get ;;
  match index_store w indexdir with
  | Some _ => ret indexdir
  | None => raise (EmptyIndexError "Index does not exist")
  end.

(** Modelled from the spec: Whoosh's [create_in], which is not part of the
    repository.  The new index has zero documents. *)
Definition create_in (indexdir : string) (_ : Schema) : M Index :=
  modify (set_index indexdir []) ;;
  ret indexdir.

(** The snapshot a reader of [ix] sees. *)
Definition snapshot_of (w : World) (ix : Index) : Snapshot :=
  match index_store w ix with
  | Some snap => snap
  | None => []
  end.

(** Modelled from the spec: [ix.writer(...)] begins the writer session,
    which is not part of the repository.  Only one session may be open at
    a time; a second one fails fast. *)
Definition ix_writer (ix : Index) : M unit :=
  w <- get ;;
  match writer w with
  | Some _ => raise (OtherException "LockError")
  | None => modify (set_writer (Some (mkWriter ix [])))
  end.

(** Modelled from the spec: the upsert of [writer.update_document], which is
    not part of the repository.  It is keyed on the unique field of the
    schema: every entry with the document's path goes, the document is
    added last. *)
Definition upsert (sch : Schema) (doc : Document) (docs : list Document)
  : list Document :=
  if unique (schema_path sch)
  then filter (fun d => negb (has_path (path doc) d)) docs ++ [doc]
  else docs ++ [doc].

(** Modelled from the spec: [writer.update_document], which is not part of
    the repository.  It stages an upsert keyed by the id, replacing any
    prior staged version of that id; nothing is visible before commit. *)
Definition update_document (doc : Document) : M unit :=
  w <- get ;;
  match writer w with
  | None => raise (OtherException "IndexingError: writer is closed")
  | Some wr =>
      match update_error doc with
      | Some e => raise e
      | None =>
          modify (set_writer
                    (Some (mkWriter (writer_index wr) (upsert schema doc (staged wr)))))
      end
  end.

(** Modelled from the spec: the merge inside [writer.commit], which is not
    part of the repository.  The staged documents go into a working copy of
    the snapshot one after the other; the merge stops at the first that
    fails. *)
Fixpoint merge (work : Snapshot) (docs : list Document) : Result Snapshot :=
  match docs with
  | [] => Ok work
  | doc :: rest =>
      match merge_error doc with
      | Some e => Raise e
      | None => merge (upsert schema doc work) rest
      end
  end.

(** Modelled from the spec: [writer.commit], which is not part of the
    repository.  It publishes the snapshot built from the prior snapshot's
    documents, minus the ids upserted, plus the staged documents; when the
    merge fails it raises and publishes nothing. *)
Definition commit : M unit :=
  w <- get ;;
  match writer w with
  | None => raise (OtherException "IndexingError: writer is closed")
  | Some wr =>
      match merge (snapshot_of w (writer_index wr)) (staged wr) with
      | Raise e => raise e
      | Ok snap =>
          modify (fun w => set_writer None (set_index (writer_index wr) snap w))
      end
  end.

(** Modelled from the spec: [writer.cancel], which is not part of the
    repository.  It discards all staged work and ends the session. *)
Definition cancel : M unit := modify (set_writer None).

(** *** [create_or_open_index] *)

(** [os.path.exists] and [os.makedirs] are not modelled apart: a directory
    without an index and a directory that does not exist are both [None]
    in [index_store], and [open_dir] raises [EmptyIndexError] on both. *)
Definition create_or_open_index (indexdir : string) : M Index :=
  fun w =>
    match open_dir indexdir w with
    | (Ok ix, w') => (Ok ix, w')
    | (Raise e, w') =>
        if is_EmptyIndexError e then create_in indexdir schema w'
        else (Raise e, w')
    end.

(** *** [index_pdfs] *)

(** [for page in reader.pages: ...], accumulating [extracted_text]. *)
Fixpoint extract_pages (pages : list (Result (option string)))
                       (extracted_text : string) : Result string :=
  match pages with
  | [] => Ok extracted_text
  | Raise e :: _ => Raise e
  | Ok page_text :: rest =>
      match page_text with
      | Some (String _ _ as t) => extract_pages rest (extracted_text ++ t ++ newline)%string
      | _ => extract_pages rest extracted_text
      end
  end.

(** [indexed_files] and [error_files]. *)
Record Counters : Type := mkCounters {
  indexed_files : nat;
  error_files : nat
}.

(** The body of [for i, filename in enumerate(all_files)]. *)
Definition index_file (books_dir : string) (total_files i : nat)
                      (fname : string) (c : Counters) : M Counters :=
  let full_path := path_join books_dir fname in
  try_except
    (status_callback (IndexingFile (i + 1) total_files fname) Info ;;
     pages <- lift (PdfReader full_path) ;;
     extracted_text <- lift (extract_pages pages EmptyString) ;;
     if nonempty extracted_text then
       let normalized_text := normalize_text extracted_text in
       update_document (mkDocument full_path fname normalized_text) ;;
       ret (mkCounters (indexed_files c + 1) (error_files c))
     else
       status_callback (NoTextExtracted fname) Error ;;
       ret (mkCounters (indexed_files c) (error_files c + 1)))
    (fun e =>
       status_callback (ErrorIndexing fname e) Error ;;
       ret (mkCounters (indexed_files c) (error_files c + 1))).

Fixpoint index_loop (books_dir : string) (total_files i : nat)
                    (files : list string) (c : Counters) : M Counters :=
  match files with
  | [] => ret c
  | fname :: rest =>
      c' <- index_file books_dir total_files i fname c ;;
      index_loop books_dir total_files (S i) rest c'
  end.

(** [f.lower().endswith(".pdf")] *)
Definition is_pdf (f : string) : bool := endswith (lower f) ".pdf".

Definition index_pdfs (books_dir index_dir : string) : M unit :=
  if negb (isdir books_dir) then
    status_callback (BooksDirNotFound books_dir) Error
  else
    ix <- create_or_open_index index_dir ;;
    ix_writer ix ;;
    try_except
      (status_callback StartingIndexing Info ;;
       names <- lift (listdir books_dir) ;;
       let all_files := filter is_pdf names in
       let total_files := length all_files in
       status_callback (FoundPdfFiles total_files books_dir) Info ;;
       c <- index_loop books_dir total_files 0 all_files (mkCounters 0 0) ;;
       status_callback (Committing (indexed_files c)) Info ;;
       commit ;;
       status_callback
         (IndexingComplete (indexed_files c) (error_files c)) Success)
      (fun e =>
         status_callback (FatalIndexingError e) Error ;;
         cancel).

(** *** [search_index] *)

Definition no_snippet : string := "[No relevant snippet found]".

(** [for hit in results: ... results_list.append({...})] *)
Fixpoint collect_hits (hits : list (Hit Score))
                      (results_list : list (SearchResult Score))
  : Result (list (SearchResult Score)) :=
  match hits with
  | [] => Ok results_list
  | hit :: rest =>
      match hit_highlights hit with
      | Raise e => Raise e
      | Ok highlight =>
          collect_hits rest
            (results_list ++
               [mkSearchResult (filename (hit_fields hit)) (path (hit_fields hit))
                               (hit_score hit)
                               (if nonempty highlight then highlight else no_snippet)])
      end
  end.

(** [ix.close()] releases the handle; nothing of the world changes.  The
    two assignments to [results.fragmenter] only tune what
    [hit.highlights] gives, which [Hit] carries as it is. *)
Definition ix_close (ix : Index) : M unit := ret tt.

Definition search_index (index_dir query_string : string) : M unit :=
  fun w =>
    match open_dir index_dir w with
    | (Raise e, w') =>
        if is_EmptyIndexError e then
          (status_callback IndexEmptyOrNotFound Error ;;
           results_callback []) w'
        else (Raise e, w')
    | (Ok ix, w') =>
        try_finally
          (try_except
             (w0 <- get ;;
              let searcher := snapshot_of w0 ix in
              let normalized_query := normalize_text query_string in
              query <- lift (parse normalized_query) ;;
              status_callback (RunningQuery query_string) Info ;;
              results <- lift (search searcher query 50) ;;
              status_callback (FoundResults (fst results)) Info ;;
              results_list <- lift (collect_hits (snd results) []) ;;
              results_callback results_list)
             (fun e =>
                status_callback (ErrorDuringSearch e) Error ;;
                results_callback []))
          (ix_close ix) w'
    end.

(** *** [PdfSearchApp] *)

Definition update_status : Status -> Level -> M unit := status_callback.

Definition display_results : list (SearchResult Score) -> M unit :=
  results_callback.

Definition set_buttons (enabled : bool) : M unit :=
  modify (fun w =>
    mkWorld (index_store w) (writer w) (status_log w) (results_log w) enabled).

Definition _enable_buttons : M unit := set_buttons true.

(** The worker runs here when it is started: the thread is
    not modelled. *)
Definition _run_search (query : string) : M unit :=
  try_finally (search_index INDEX_DIR query) _enable_buttons.


Definition _run_indexing (current_books_dir : string) : M unit :=
  try_finally (index_pdfs current_books_dir INDEX_DIR) _enable_buttons.

Definition start_indexing_thread (current_books_dir : string) : M unit :=
  update_status StartingIndexingProcess Info ;;
  set_buttons false ;;
  _run_indexing current_books_dir.

(** ** What one run of [index_pdfs] does, file by file *)

(** [extracted_text] of a file when the page loop is over. *)
Definition extracted_text_of (books_dir fname : string) : Result string :=
  match PdfReader (path_join books_dir fname) with
  | Raise e => Raise e
  | Ok pages => extract_pages pages EmptyString
  end.

(** The three ways through the body of the loop. *)
Inductive Outcome : Type :=
| Indexed (doc : Document)
| Skipped
| Failed (e : exn).

Definition outcome (books_dir fname : string) : Outcome :=
  match extracted_text_of books_dir fname with
  | Raise e => Failed e
  | Ok extracted_text =>
      if nonempty extracted_text then
        let doc := mkDocument (path_join books_dir fname) fname
                              (normalize_text extracted_text) in
        match update_error doc with
        | Some e => Failed e
        | None => Indexed doc
        end
      else Skipped
  end.

Definition stage_file (books_dir fname : string) (docs : list Document)
  : list Document :=
  match outcome books_dir fname with
  | Indexed doc => upsert schema doc docs
  | _ => docs
  end.

Definition count_file (books_dir fname : string) (c : Counters) : Counters :=
  match outcome books_dir fname with
  | Indexed _ => mkCounters (indexed_files c + 1) (error_files c)
  | _ => mkCounters (indexed_files c) (error_files c + 1)
  end.

Definition file_log (books_dir : string) (total_files i : nat) (fname : string)
  : list (Status * Level) :=
  (IndexingFile (i + 1) total_files fname, Info) ::
  match outcome books_dir fname with
  | Indexed _ => []
  | Skipped => [(NoTextExtracted fname, Error)]
  | Failed e => [(ErrorIndexing fname e, Error)]
  end.

(** The documents staged, the counters and the messages after the loop. *)
Fixpoint stage_all (books_dir : string) (files : list string)
                   (docs : list Document) : list Document :=
  match files with
  | [] => docs
  | fname :: rest => stage_all books_dir rest (stage_file books_dir fname docs)
  end.

Fixpoint count_all (books_dir : string) (files : list string) (c : Counters)
  : Counters :=
  match files with
  | [] => c
  | fname :: rest => count_all books_dir rest (count_file books_dir fname c)
  end.

Fixpoint loop_log (books_dir : string) (total_files i : nat)
                  (files : list string) : list (Status * Level) :=
  match files with
  | [] => []
  | fname :: rest =>
      file_log books_dir total_files i fname ++
      loop_log books_dir total_files (S i) rest
  end.

(** The snapshot a run leaves in the index directory, and the messages it
    sends, when it starts on the snapshot [pre]. *)
Definition run_summary (books_dir : string) (pre : Snapshot)
  : Snapshot * list (Status * Level) :=
  match listdir books_dir with
  | Raise e => (pre, [(StartingIndexing, Info); (FatalIndexingError e, Error)])
  | Ok names =>
      let all_files := filter is_pdf names in
      let total_files := length all_files in
      let c := count_all books_dir all_files (mkCounters 0 0) in
      let said :=
        (StartingIndexing, Info) :: (FoundPdfFiles total_files books_dir, Info) ::
        loop_log books_dir total_files 0 all_files ++
        [(Committing (indexed_files c), Info)] in
      match merge pre (stage_all books_dir all_files []) with
      | Raise e => (pre, said ++ [(FatalIndexingError e, Error)])
      | Ok post =>
          (post, said ++ [(IndexingComplete (indexed_files c) (error_files c),
                           Success)])
      end
  end.

Definition is_indexed (o : Outcome) : bool :=
  match o with
  | Indexed _ => true
  | _ => false
  end.

(** ** What one call of [search_index] does on an index that opens *)

(** The messages and the result list of a search of [snap], when the parser
    is given [normalized_query]. *)
Definition search_summary (snap : Snapshot) (query_string normalized_query : string)
  : list (Status * Level) * list (SearchResult Score) :=
  match parse normalized_query with
  | Raise e => ([(ErrorDuringSearch e, Error)], [])
  | Ok query =>
      match search snap query 50 with
      | Raise e =>
          ([(RunningQuery query_string, Info); (ErrorDuringSearch e, Error)], [])
      | Ok results =>
          match collect_hits (snd results) [] with
          | Raise e =>
              ([(RunningQuery query_string, Info);
                (FoundResults (fst results), Info);
                (ErrorDuringSearch e, Error)], [])
          | Ok results_list =>
              ([(RunningQuery query_string, Info);
                (FoundResults (fst results), Info)], results_list)
          end
      end
  end.

(** ** The contract of the normalizer, in the words of the specification *)


End PdfTextSearcher.

(** The pieces of a string between its separators, empty pieces too. *)
Fixpoint split_by (is_sep : ascii -> bool) (s : string) : list string :=
  match s with
  | EmptyString => [EmptyString]
  | String c rest =>
      if is_sep c then EmptyString :: split_by is_sep rest
      else match split_by is_sep rest with
           | [] => [String c EmptyString]
           | piece :: pieces => String c piece :: pieces
           end
  end.




(** ** A sample installation *)

(** The libraries on the inputs the examples below run on.  The stemmer is
    Porter's algorithm on four words: [dogs] loses its plural (step 1a),
    [running] loses [ing] and the doubled consonant (step 1b), [agreed]
    becomes [agree] (step 1b) and then [agre] (step 5a), and [agre], read
    again, loses its final [e] in step 5a as well.  None of these stems is
    a WordNet entry, so the lemmatizer returns them as they are; of plural
    [mice] it gives the singular.  The tokenizer splits on white space. *)

Definition ascii_lower (c : ascii) : ascii :=
  let n := nat_of_ascii c in
  if ((65 <=? n) && (n <=? 90))%nat then ascii_of_nat (n + 32) else c.

Fixpoint string_map (f : ascii -> ascii) (s : string) : string :=
  match s with
  | EmptyString => EmptyString
  | String c rest => String (f c) (string_map f rest)
  end.

Definition sample_tokenize (text : string) : list string :=
  filter nonempty (split_by is_space text).

Definition sample_stem (word : string) : string :=
  if String.eqb word "dogs" then "dog"
  else if String.eqb word "running" then "run"
  else if String.eqb word "agreed" then "agre"
  else if String.eqb word "agre" then "agr"
  else word.

Definition sample_lemmatize (word : string) : string :=
  if String.eqb word "mice" then "mouse" else word.

Definition sample_nltk : Nltk :=
  {| word_tokenize := sample_tokenize;
     stem := sample_stem;
     lemmatize := sample_lemmatize |}.

Definition sample_listing : list string :=
  ["a.pdf"; "B.PDF"; "notes.txt"; "empty.pdf"; "broken.pdf"].

Definition sample_python : Python :=
  {| lower := string_map ascii_lower;
     isdir := fun d => String.eqb d "books";
     listdir := fun d =>
       if String.eqb d "books" then Ok sample_listing
       else Raise (OtherException "FileNotFoundError");
     path_join := fun d f => (d ++ "/" ++ f)%string |}.

(** Three readable files, one of them without any text, and a broken one. *)
Definition sample_pypdf : PyPdf :=
  {| PdfReader := fun p =>
       if String.eqb p "books/a.pdf" then Ok [Ok (Some "Dogs running"); Ok None]
       else if String.eqb p "books/B.PDF" then Ok [Ok (Some "agreed")]
       else if String.eqb p "books/empty.pdf" then Ok [Ok (Some EmptyString); Ok None]
       else Raise (OtherException "EOF marker not found") |}.

(** The same directory after [a.pdf] was replaced by another text. *)
Definition sample_pypdf_later : PyPdf :=
  {| PdfReader := fun p =>
       if String.eqb p "books/a.pdf" then Ok [Ok (Some "Mice")]
       else if String.eqb p "books/B.PDF" then Ok [Ok (Some "agreed")]
       else if String.eqb p "books/empty.pdf" then Ok [Ok (Some EmptyString); Ok None]
       else Raise (OtherException "EOF marker not found") |}.

(** A Whoosh whose storage never fails and whose searches find nothing. *)
Definition sample_whoosh : Whoosh nat :=
  {| Query := string;
     parse := fun q => Ok q;
     search := fun _ _ _ => Ok (0, []);
     update_error := fun _ => None;
     merge_error := fun _ => None |}.

(** A Whoosh whose storage fails at commit on the second document. *)
Definition failing_whoosh : Whoosh nat :=
  {| Query := string;
     parse := fun q => Ok q;
     search := fun _ _ _ => Ok (0, []);
     update_error := fun _ => None;
     merge_error := fun d =>
       if String.eqb (path d) "books/B.PDF"
       then Some (OtherException "No space left on device") else None |}.

(** A fresh installation: no index, no writer, nothing said yet. *)
Definition fresh_world : World nat :=
  mkWorld (fun _ => None) None [] [] true.

(** An installation whose index holds an older version of [a.pdf]. *)
Definition indexed_world : World nat :=
  mkWorld (fun d => if String.eqb d "whoosh_index"
                    then Some [mkDocument "books/a.pdf" "a.pdf" "old text"]
                    else None)
          None [] [] true.

(** ** Readings of the run and of the search *)

(** The dictionary [search_index] appends for one hit whose highlight is
    [highlight]. *)
Definition result_of_hit {Score : Type} (hit : Hit Score) (highlight : string)
  : SearchResult Score :=
  mkSearchResult (filename (hit_fields hit)) (path (hit_fields hit))
                 (hit_score hit)
                 (if nonempty highlight then highlight else no_snippet).

(** A message sent with [error=True]. *)
Definition is_error (x : Status * Level) : bool :=
  match snd x with
  | Error => true
  | _ => false
  end.

(** A message of the form [Indexing (i/total): filename]. *)
Definition is_progress (x : Status * Level) : bool :=
  match fst x with
  | IndexingFile _ _ _ => true
  | _ => false
  end.


(** What one page adds to [extracted_text]. *)
Definition page_chunk (page_text : option string) : string :=
  match page_text with
  | Some (String _ _ as t) => (t ++ newline)%string
  | _ => EmptyString
  end.

Fixpoint string_concat (pieces : list string) : string :=
  match pieces with
  | [] => EmptyString
  | piece :: rest => (piece ++ string_concat rest)%string
  end.

(** ** More of the sample installation *)

(** A books directory whose [a.pdf] is one blank page. *)
Definition blank_pypdf : PyPdf :=
  {| PdfReader := fun p =>
       if String.eqb p "books/a.pdf" then Ok [Ok (Some " ")]
       else Raise (OtherException "EOF marker not found") |}.

(** A books directory whose [a.pdf] has a page that cannot be read after a
    page that can. *)
Definition torn_pypdf : PyPdf :=
  {| PdfReader := fun p =>
       if String.eqb p "books/a.pdf"
       then Ok [Ok (Some "Dogs"); Raise (OtherException "bad page"); Ok (Some "run")]
       else Raise (OtherException "EOF marker not found") |}.

(** A Whoosh that returns every document of the snapshot as a hit, with
    its content as the highlight. *)
Definition finding_whoosh : Whoosh nat :=
  {| Query := string;
     parse := fun q => Ok q;
     search := fun snap _ _ =>
       Ok (length snap, map (fun d => mkHit d 1 (Ok (content d))) snap);
     update_error := fun _ => None;
     merge_error := fun _ => None |}.

(** A Whoosh whose highlighter fails on the document of [B.PDF]. *)
Definition torn_whoosh : Whoosh nat :=
  {| Query := string;
     parse := fun q => Ok q;
     search := fun snap _ _ =>
       Ok (length snap,
           map (fun d => mkHit d 1
                  (if String.eqb (filename d) "B.PDF"
                   then Raise (OtherException "bad fragment")
                   else Ok (content d))) snap);
     update_error := fun _ => None;
     merge_error := fun _ => None |}.

(** An installation in which two files are indexed, one with no content. *)
Definition searched_world : World nat :=
  mkWorld (fun d => if String.eqb d "whoosh_index"
                    then Some [mkDocument "books/a.pdf" "a.pdf" "dog run";
                               mkDocument "books/B.PDF" "B.PDF" EmptyString]
                    else None)
          None [] [] true.

(** An installation whose index holds a file that has left the books
    directory. *)
Definition stale_world : World nat :=
  mkWorld (fun d => if String.eqb d "whoosh_index"
                    then Some [mkDocument "books/gone.pdf" "gone.pdf" "old text"]
                    else None)
          None [] [] true.

(** An installation in which a writer session is still open. *)
Definition busy_world : World nat :=
  mkWorld (fun _ => None) (Some (mkWriter "whoosh_index" [])) [] [] true.

(** * Properties *)

(** ** Lists and strings *)




Lemma split_by_cons (is_sep : ascii -> bool) (s : string) :
  exists piece pieces, split_by is_sep s = piece :: pieces.
Proof.
  induction s as [|c s [piece [pieces IH]]]; simpl.
  - eauto.
  - destruct (is_sep c); [eauto|]. rewrite IH. eauto.
Qed.




(** ** The normalizer *)

Section Normalizer.

Context {nltk : Nltk} {python : Python}.

(** The term of one token: the body of the loop of [normalize_text]. *)
Lemma normalize_loop_map (tokens normalized_tokens : list string) :
  normalize_loop tokens normalized_tokens =
  normalized_tokens ++ map (fun token => lemmatize (stem (lower token))) tokens.
Proof.
  revert normalized_tokens.
  induction tokens as [|token rest IH]; intros acc; simpl.
  - now rewrite app_nil_r.
  - rewrite IH, <- app_assoc. reflexivity.
Qed.

(** The terms are the tokens, each through the body of the loop. *)
Lemma normalize_tokens_map (text : string) :
  normalize_tokens text =
  map (fun token => lemmatize (stem (lower token))) (word_tokenize text).
Proof.
  unfold normalize_tokens. now rewrite normalize_loop_map.
Qed.




End Normalizer.

(** ** One run of [index_pdfs] *)

Section Indexing.

Context {Score : Type} {nltk : Nltk} {python : Python} {pypdf : PyPdf}
        {whoosh : Whoosh Score}.

(** The body of the loop never raises: it stages the document or counts the
    file as skipped or failed, and says so. *)
Lemma index_file_run books_dir total_files i fname c store ix docs said res b :
  index_file books_dir total_files i fname c
    (mkWorld store (Some (mkWriter ix docs)) said res b)
  = (Ok (count_file books_dir fname c),
     mkWorld store (Some (mkWriter ix (stage_file books_dir fname docs)))
             (said ++ file_log books_dir total_files i fname) res b).
Proof.
  unfold index_file, count_file, stage_file, file_log, outcome,
    extracted_text_of, try_except, bind, lift, status_callback, modify, ret.
  simpl.
  destruct (PdfReader (path_join books_dir fname)) as [pages|e]; simpl;
    [|now rewrite <- app_assoc].
  destruct (extract_pages pages EmptyString) as [text|e]; simpl;
    [|now rewrite <- app_assoc].
  destruct (nonempty text); simpl; [|now rewrite <- app_assoc].
  unfold update_document, bind, get, raise, modify. simpl.
  destruct (update_error _) as [e|]; simpl; [now rewrite <- app_assoc|].
  reflexivity.
Qed.

Lemma index_loop_run books_dir total_files files :
  forall i c store ix docs said res b,
    index_loop books_dir total_files i files c
      (mkWorld store (Some (mkWriter ix docs)) said res b)
    = (Ok (count_all books_dir files c),
       mkWorld store (Some (mkWriter ix (stage_all books_dir files docs)))
               (said ++ loop_log books_dir total_files i files) res b).
Proof.
  induction files as [|fname rest IH]; intros; simpl.
  - now rewrite app_nil_r.
  - unfold bind at 1. rewrite index_file_run, IH, <- app_assoc. reflexivity.
Qed.

(** Opening the index of a run: the directory then holds the snapshot the
    session starts on, which is empty when the index is new. *)
Lemma create_or_open_index_run index_dir (w : World Score) :
  exists w1,
    create_or_open_index index_dir w = (Ok index_dir, w1)
    /\ index_store w1 index_dir = Some (snapshot_of w index_dir)
    /\ (forall d, String.eqb d index_dir = false ->
                  index_store w1 d = index_store w d)
    /\ writer w1 = writer w /\ status_log w1 = status_log w
    /\ results_log w1 = results_log w
    /\ buttons_enabled w1 = buttons_enabled w.
Proof.
  unfold create_or_open_index, open_dir, snapshot_of, bind, get, ret, raise.
  simpl. destruct (index_store w index_dir) as [snap|] eqn:Hix.
  - exists w. repeat split; auto.
  - simpl. unfold create_in, bind, modify, ret. simpl.
    eexists. split; [reflexivity|]. simpl. rewrite String.eqb_refl.
    repeat split; auto. intros d Hd. now rewrite Hd.
Qed.

(** A run on an existing books directory, with no writer open, returns
    normally; it leaves no writer open, and [run_summary] tells the
    snapshot it leaves and what it said. *)
Lemma index_pdfs_run books_dir index_dir (w : World Score) :
  isdir books_dir = true ->
  writer w = None ->
  exists w',
    index_pdfs books_dir index_dir w = (Ok tt, w')
    /\ writer w' = None
    /\ index_store w' index_dir
       = Some (fst (run_summary books_dir (snapshot_of w index_dir)))
    /\ (forall d, String.eqb d index_dir = false ->
                  index_store w' d = index_store w d)
    /\ status_log w'
       = status_log w ++ snd (run_summary books_dir (snapshot_of w index_dir))
    /\ results_log w' = results_log w
    /\ buttons_enabled w' = buttons_enabled w.
Proof.
  intros Hdir Hwr. unfold index_pdfs. rewrite Hdir. simpl.
  destruct (create_or_open_index_run index_dir w)
    as (w1 & Hopen & Hix & Hother & Hwr1 & Hsaid & Hres & Hb).
  unfold bind at 1. rewrite Hopen.
  destruct w1 as [store1 wr1 said1 res1 b1]. simpl in *.
  rewrite Hwr in Hwr1. subst wr1 said1 res1 b1.
  unfold bind at 1. unfold ix_writer, bind, get, modify. simpl.
  unfold try_except, run_summary, status_callback, bind, modify, lift. simpl.
  destruct (listdir books_dir) as [names|e]; simpl.
  - rewrite index_loop_run. simpl.
    unfold commit, bind, get, raise, modify. simpl.
    unfold snapshot_of at 1. simpl. rewrite Hix.
    destruct (merge _ _) as [post|e]; simpl.
    + eexists. split; [reflexivity|]. simpl. rewrite String.eqb_refl.
      repeat split; auto.
      * intros d Hd. rewrite Hd. now apply Hother.
      * now rewrite <- !app_assoc.
    + unfold cancel, modify. simpl.
      eexists. split; [reflexivity|]. simpl.
      repeat split; auto. now rewrite <- !app_assoc.
  - unfold cancel, modify. simpl.
    eexists. split; [reflexivity|]. simpl.
    repeat split; auto. now rewrite <- !app_assoc.
Qed.

(** *** The counters *)

Lemma count_all_counts books_dir files :
  forall c,
    indexed_files (count_all books_dir files c)
    = indexed_files c
      + length (filter (fun f => is_indexed (outcome books_dir f)) files)
    /\ error_files (count_all books_dir files c)
       = error_files c
         + length (filter (fun f => negb (is_indexed (outcome books_dir f))) files).
Proof.
  induction files as [|fname rest IH]; intros c; simpl.
  - lia.
  - destruct (IH (count_file books_dir fname c)) as [Hi He].
    rewrite Hi, He. unfold count_file.
    destruct (outcome books_dir fname); simpl; lia.
Qed.

Lemma filter_partition_length {A} (f : A -> bool) (l : list A) :
  length (filter f l) + length (filter (fun a => negb (f a)) l) = length l.
Proof.
  induction l as [|a l IH]; simpl; [reflexivity|].
  destruct (f a); simpl; lia.
Qed.

(** The loop only says which file it is on, that a file has no text, or
    that a file failed. *)
Lemma loop_log_kinds books_dir total_files files :
  forall i x,
    In x (loop_log books_dir total_files i files) ->
    exists fname,
      In fname files /\
      ((exists n, x = (IndexingFile n total_files fname, Info))
       \/ (x = (NoTextExtracted fname, Error) /\ outcome books_dir fname = Skipped)
       \/ (exists e, x = (ErrorIndexing fname e, Error))).
Proof.
  induction files as [|fname rest IH]; intros i x Hin; simpl in Hin.
  - contradiction.
  - destruct Hin as [Hx | Hin].
    + exists fname. split; [now left|]. left. eauto.
    + apply in_app_or in Hin as [Hin | Hin].
      * exists fname. split; [now left|].
        destruct (outcome books_dir fname) eqn:Ho; simpl in Hin.
        -- contradiction.
        -- destruct Hin as [<-|[]]. right; left. auto.
        -- destruct Hin as [<-|[]]. right; right. eauto.
      * destruct (IH _ _ Hin) as (f & Hf & Hk). exists f. split; [now right|].
        exact Hk.
Qed.

(** C10. After a run that lists the books directory, the completion message
    carries two counters that split the PDF files: the first counts the
    files whose document was staged, the second all the others, and their
    sum is the number of files whose lowercased name ends in [.pdf]; when
    the commit succeeds the message is sent. *)
Theorem counters_partition_pdf_files books_dir index_dir (w : World Score) names :
  isdir books_dir = true ->
  writer w = None ->
  listdir books_dir = Ok names ->
  let all_files := filter is_pdf names in
  exists w' new,
    index_pdfs books_dir index_dir w = (Ok tt, w')
    /\ status_log w' = status_log w ++ new
    /\ In (FoundPdfFiles (length all_files) books_dir, Info) new
    /\ (forall i e,
          In (IndexingComplete i e, Success) new ->
          i = length (filter (fun f => is_indexed (outcome books_dir f)) all_files)
          /\ e = length (filter (fun f => negb (is_indexed (outcome books_dir f)))
                                all_files)
          /\ i + e = length all_files)
    /\ ((forall e, ~ In (FatalIndexingError e, Error) new) ->
        exists i e, In (IndexingComplete i e, Success) new).
Proof.
  intros Hdir Hwr Hls all_files.
  destruct (index_pdfs_run books_dir index_dir w Hdir Hwr)
    as (w' & Hrun & _ & _ & _ & Hsaid & _).
  exists w', (snd (run_summary books_dir (snapshot_of w index_dir))).
  split; [exact Hrun|]. split; [exact Hsaid|].
  unfold run_summary. rewrite Hls. fold all_files.
  destruct (count_all_counts books_dir all_files (mkCounters 0 0)) as [Hi He].
  simpl in Hi, He.
  pose proof (filter_partition_length
                (fun f => is_indexed (outcome books_dir f)) all_files) as Hsum.
  assert (Hloop : forall i e x,
             In x (loop_log books_dir (length all_files) 0 all_files ++
                   [(Committing (indexed_files
                       (count_all books_dir all_files (mkCounters 0 0))), Info)]) ->
             x <> (IndexingComplete i e, Success)).
  { intros i e x Hin ->. apply in_app_or in Hin as [Hin | [Hin | []]];
      [|discriminate].
    apply loop_log_kinds in Hin as (f & _ & [[n Hx] | [[Hx _] | [e' Hx]]]);
      discriminate. }
  destruct (merge _ _) as [post|e0]; simpl.
  - split; [right; now left|]. split.
    + intros i e [Hx | [Hx | Hin]]; try discriminate.
      apply in_app_or in Hin as [Hin | [Hx | []]].
      * exfalso. exact (Hloop i e _ Hin eq_refl).
      * injection Hx as <- <-. rewrite Hi, He. repeat split. lia.
    + intros _. do 2 eexists. right; right. apply in_or_app. right. now left.
  - split; [right; now left|]. split.
    + intros i e [Hx | [Hx | Hin]]; try discriminate.
      apply in_app_or in Hin as [Hin | [Hx | []]]; [|discriminate].
      exfalso. exact (Hloop i e _ Hin eq_refl).
    + intros Hno. exfalso. apply (Hno e0).
      right; right. apply in_or_app. right. now left.
Qed.

(** *** Upserts *)

Lemma has_path_true p d : has_path p d = true <-> path d = p.
Proof. unfold has_path. destruct (String.eqb_spec (path d) p); split; auto; discriminate. Qed.

(** After an upsert the entries of the document's path are the document
    alone; the entries of every other path are as before. *)
Lemma entries_upsert p doc docs :
  entries p (upsert schema doc docs)
  = if has_path p doc then [doc] else entries p docs.
Proof.
  unfold upsert, entries. simpl. rewrite filter_app. simpl.
  destruct (has_path p doc) eqn:Hp.
  - apply has_path_true in Hp.
    replace (filter (has_path p) (filter (fun d => negb (has_path (path doc) d)) docs))
      with (@nil Document); [reflexivity|].
    induction docs as [|d docs IH]; simpl; [reflexivity|].
    destruct (has_path (path doc) d) eqn:Hd; simpl; [exact IH|].
    destruct (has_path p d) eqn:Hpd; [|exact IH].
    apply has_path_true in Hpd.
    assert (has_path (path doc) d = true) by (apply has_path_true; congruence).
    congruence.
  - rewrite app_nil_r.
    induction docs as [|d docs IH]; simpl; [reflexivity|].
    destruct (has_path (path doc) d) eqn:Hd; simpl.
    + apply has_path_true in Hd.
      assert (has_path p d = false) as ->; [|exact IH].
      unfold has_path in *. rewrite Hd. exact Hp.
    + destruct (has_path p d); [f_equal|]; exact IH.
Qed.

(** A merge that succeeds leaves the entries of a path alone when no
    merged document has the path. *)
Lemma merge_entries_none p docs :
  forall pre post,
    entries p docs = [] ->
    merge pre docs = Ok post ->
    entries p post = entries p pre.
Proof.
  induction docs as [|d docs IH]; intros pre post Hnone Hm; simpl in *.
  - now injection Hm as <-.
  - destruct (merge_error d); [discriminate|].
    destruct (has_path p d) eqn:Hd; [discriminate|].
    rewrite (IH _ _ Hnone Hm), entries_upsert, Hd. reflexivity.
Qed.

(** A merge that succeeds replaces the entries of a path by the one merged
    document that has the path. *)
Lemma merge_entries_single p doc docs :
  forall pre post,
    entries p docs = [doc] ->
    merge pre docs = Ok post ->
    entries p post = [doc].
Proof.
  induction docs as [|d docs IH]; intros pre post Hone Hm; simpl in *.
  - discriminate.
  - destruct (merge_error d); [discriminate|].
    destruct (has_path p d) eqn:Hd.
    + injection Hone as -> Hnone.
      rewrite (merge_entries_none _ _ _ _ Hnone Hm), entries_upsert, Hd.
      reflexivity.
    + exact (IH _ _ Hone Hm).
Qed.

(** The documents the loop stages come from files, under their full path. *)
Lemma outcome_indexed_path books_dir fname doc :
  outcome books_dir fname = Indexed doc -> path doc = path_join books_dir fname.
Proof.
  unfold outcome. destruct (extracted_text_of books_dir fname) as [text|];
    [|discriminate].
  destruct (nonempty text); [|discriminate].
  destruct (update_error _); [discriminate|].
  now intros [= <-].
Qed.

(** Files that stage nothing under a path leave its staged entries alone. *)
Lemma stage_all_entries_other p books_dir files :
  forall docs,
    (forall f doc, In f files -> outcome books_dir f = Indexed doc ->
                   has_path p doc = false) ->
    entries p (stage_all books_dir files docs) = entries p docs.
Proof.
  induction files as [|f rest IH]; intros docs Hother; simpl.
  - reflexivity.
  - rewrite IH by (intros; eapply Hother; [right|]; eauto).
    unfold stage_file. destruct (outcome books_dir f) eqn:Ho; try reflexivity.
    rewrite entries_upsert, (Hother f doc (or_introl eq_refl) Ho). reflexivity.
Qed.

(** The file that owns a path stages exactly one entry under it. *)
Lemma stage_all_entries_single books_dir files fname doc :
  forall docs,
    outcome books_dir fname = Indexed doc ->
    (forall f, In f files ->
               path_join books_dir f = path_join books_dir fname -> f = fname) ->
    In fname files \/ entries (path doc) docs = [doc] ->
    entries (path doc) (stage_all books_dir files docs) = [doc].
Proof.
  induction files as [|f rest IH]; intros docs Ho Hown Hin; simpl.
  - destruct Hin as [[] | Hdocs]. exact Hdocs.
  - apply IH; [exact Ho | intros; apply Hown; [right|]; assumption |].
    unfold stage_file. destruct (outcome books_dir f) as [d| |e] eqn:Hf.
    + rewrite entries_upsert. destruct (has_path (path doc) d) eqn:Hd.
      * right. apply has_path_true in Hd.
        rewrite (outcome_indexed_path _ _ _ Hf),
                (outcome_indexed_path _ _ _ Ho) in Hd.
        apply (Hown f (or_introl eq_refl)) in Hd. subst f.
        congruence.
      * destruct Hin as [[-> | Hin] | Hdocs]; auto.
        rewrite Ho in Hf. injection Hf as <-.
        unfold has_path in Hd. now rewrite String.eqb_refl in Hd.
    + destruct Hin as [[-> | Hin] | Hdocs]; auto. congruence.
    + destruct Hin as [[-> | Hin] | Hdocs]; auto. congruence.
Qed.

(** *** The commit *)

(** Before the commit nothing announces completion. *)
Lemma no_completion_before_commit books_dir total_files files n i e x :
  In x ((StartingIndexing, Info) :: (FoundPdfFiles total_files books_dir, Info) ::
        loop_log books_dir total_files 0 files ++ [(Committing n, Info)]) ->
  x <> (IndexingComplete i e, Success).
Proof.
  intros [<- | [<- | Hin]]; try discriminate.
  apply in_app_or in Hin as [Hin | [<- | []]]; [|discriminate].
  apply loop_log_kinds in Hin as (f & _ & [[m ->] | [[-> _] | [e' ->]]]);
    discriminate.
Qed.

(** C2. The commit of a run is all or nothing.  When the merge of a staged
    document fails, the commit raises, the run reports the fatal error as
    its last message and cancels the session, and the index directory
    still holds the snapshot the session started on; no completion is
    announced.  When the merge succeeds the directory holds the snapshot
    merged from all staged documents.  So a later search reads one of the
    two snapshots, whole. *)
Theorem commit_all_or_nothing books_dir index_dir (w : World Score) :
  isdir books_dir = true ->
  writer w = None ->
  let pre := snapshot_of w index_dir in
  exists w' new,
    index_pdfs books_dir index_dir w = (Ok tt, w')
    /\ status_log w' = status_log w ++ new
    /\ writer w' = None
    /\ (forall d, String.eqb d index_dir = false ->
                  index_store w' d = index_store w d)
    /\ match listdir books_dir with
       | Raise e =>
           index_store w' index_dir = Some pre
           /\ exists said, new = said ++ [(FatalIndexingError e, Error)]
       | Ok names =>
           match merge pre (stage_all books_dir (filter is_pdf names) []) with
           | Raise e =>
               index_store w' index_dir = Some pre
               /\ (exists said, new = said ++ [(FatalIndexingError e, Error)])
               /\ (forall i n, ~ In (IndexingComplete i n, Success) new)
           | Ok post =>
               index_store w' index_dir = Some post
               /\ exists said i n,
                    new = said ++ [(IndexingComplete i n, Success)]
           end
       end
    /\ (snapshot_of w' index_dir = pre
        \/ exists names,
             listdir books_dir = Ok names
             /\ merge pre (stage_all books_dir (filter is_pdf names) [])
                = Ok (snapshot_of w' index_dir)).
Proof.
  intros Hdir Hwr pre.
  destruct (index_pdfs_run books_dir index_dir w Hdir Hwr)
    as (w' & Hrun & Hwr' & Hix & Hother & Hsaid & _).
  fold pre in Hix, Hsaid.
  exists w', (snd (run_summary books_dir pre)).
  repeat (split; [assumption|]).
  assert (Hsnap : snapshot_of w' index_dir = fst (run_summary books_dir pre))
    by (unfold snapshot_of; now rewrite Hix).
  rewrite Hsnap, Hix. clear Hrun Hsaid Hix Hsnap.
  generalize pre. clear pre. intros pre.
  unfold run_summary.
  destruct (listdir books_dir) as [names|e]; simpl.
  - destruct (merge pre _) as [post|e] eqn:Hm; simpl.
    + split; [|right; eauto]. split; [reflexivity|].
      eexists (_ :: _ :: _), _, _. reflexivity.
    + split; [|now left]. split; [reflexivity|]. split.
      * eexists (_ :: _ :: _). reflexivity.
      * intros i n Hin.
        change (In (IndexingComplete i n, Success)
                  (((StartingIndexing, Info) ::
                    (FoundPdfFiles (length (filter is_pdf names)) books_dir, Info) ::
                    loop_log books_dir (length (filter is_pdf names)) 0
                      (filter is_pdf names) ++
                    [(Committing (indexed_files
                        (count_all books_dir (filter is_pdf names)
                                   (mkCounters 0 0))), Info)]) ++
                   [(FatalIndexingError e, Error)])) in Hin.
        apply in_app_or in Hin as [Hin | [Hin | []]]; [|discriminate].
        exact (no_completion_before_commit _ _ _ _ i n _ Hin eq_refl).
  - split; [|now left]. split; [reflexivity|].
    now exists [(StartingIndexing, Info)].
Qed.

(** C7. A file whose extracted text is the empty string is skipped.  The
    body of the loop returns normally on it: it sends the warning, adds one
    to [error_files], leaves [indexed_files] as it is and stages nothing.
    The run returns normally as well, the warning is among its messages,
    and the index holds for the path of the file what it held before. *)
Theorem empty_text_is_skipped books_dir index_dir (w : World Score) names fname :
  isdir books_dir = true ->
  writer w = None ->
  listdir books_dir = Ok names ->
  In fname names ->
  is_pdf fname = true ->
  (forall f, In f names ->
             path_join books_dir f = path_join books_dir fname -> f = fname) ->
  extracted_text_of books_dir fname = Ok EmptyString ->
  (forall total_files i c store ix docs said res b,
     index_file books_dir total_files i fname c
       (mkWorld store (Some (mkWriter ix docs)) said res b)
     = (Ok (mkCounters (indexed_files c) (error_files c + 1)),
        mkWorld store (Some (mkWriter ix docs))
                (said ++ [(IndexingFile (i + 1) total_files fname, Info);
                          (NoTextExtracted fname, Error)]) res b))
  /\ exists w' new,
       index_pdfs books_dir index_dir w = (Ok tt, w')
       /\ status_log w' = status_log w ++ new
       /\ In (NoTextExtracted fname, Error) new
       /\ entries (path_join books_dir fname) (snapshot_of w' index_dir)
          = entries (path_join books_dir fname) (snapshot_of w index_dir).
Proof.
  intros Hdir Hwr Hls Hin Hpdf Hown Htext.
  assert (Ho : outcome books_dir fname = Skipped)
    by (unfold outcome; now rewrite Htext).
  split.
  { intros. rewrite index_file_run.
    unfold count_file, stage_file, file_log. now rewrite Ho. }
  destruct (index_pdfs_run books_dir index_dir w Hdir Hwr)
    as (w' & Hrun & _ & Hix & _ & Hsaid & _).
  exists w', (snd (run_summary books_dir (snapshot_of w index_dir))).
  repeat (split; [assumption|]).
  assert (Hsnap : snapshot_of w' index_dir
                  = fst (run_summary books_dir (snapshot_of w index_dir)))
    by (unfold snapshot_of at 1; now rewrite Hix).
  rewrite Hsnap. clear Hrun Hsaid Hix Hsnap.
  unfold run_summary. rewrite Hls.
  assert (Hfile : In fname (filter is_pdf names))
    by (apply filter_In; auto).
  assert (Hlog : forall total i,
             In (NoTextExtracted fname, Error)
                (loop_log books_dir total i (filter is_pdf names))).
  { intros total. induction (filter is_pdf names) as [|f rest IH]; intros i.
    - contradiction.
    - simpl. destruct Hfile as [-> | Hfile].
      + right. apply in_or_app. left. rewrite Ho. now left.
      + right. apply in_or_app. right. now apply IH. }
  assert (Hsaid : forall n last,
             In (NoTextExtracted fname, Error)
                (((StartingIndexing, Info) ::
                  (FoundPdfFiles (length (filter is_pdf names)) books_dir, Info) ::
                  loop_log books_dir (length (filter is_pdf names)) 0
                    (filter is_pdf names) ++ [(Committing n, Info)]) ++ [last])).
  { intros. apply in_or_app. left. right; right. apply in_or_app. left.
    apply Hlog. }
  destruct (merge _ _) as [post|e] eqn:Hm; simpl.
  - split; [apply Hsaid|].
    eapply merge_entries_none; [|exact Hm].
    rewrite stage_all_entries_other; [reflexivity|].
    intros f doc Hf Hdoc. destruct (has_path _ doc) eqn:Hp; [|reflexivity].
    apply has_path_true in Hp.
    rewrite (outcome_indexed_path _ _ _ Hdoc) in Hp.
    apply filter_In in Hf as [Hf _].
    apply (Hown f Hf) in Hp. subst f. congruence.
  - split; [apply Hsaid|reflexivity].
Qed.

End Indexing.

(** ** Indexing again *)

Section Reindexing.

Context {Score : Type} {nltk : Nltk} {python : Python} {whoosh : Whoosh Score}.

(** What pypdf reads in the books directory at the first run and at the
    second. *)
Variables earlier later : PyPdf.

(** C4. Indexing an id again replaces its entry.  Let a first run, on any
    earlier content of the books directory, be followed by a second run in
    which the file yields a text and its commit succeeds.  Then the index
    holds exactly one entry under the path of the file, and its content is
    the normalized text of the second run, whatever the first run and the
    index before it held under that path. *)
Theorem upsert_replaces_never_duplicates
    books_dir index_dir (w w1 : World Score) names fname text post :
  isdir books_dir = true ->
  writer w = None ->
  index_pdfs (pypdf := earlier) books_dir index_dir w = (Ok tt, w1) ->
  listdir books_dir = Ok names ->
  In fname names ->
  is_pdf fname = true ->
  (forall f, In f names ->
             path_join books_dir f = path_join books_dir fname -> f = fname) ->
  extracted_text_of (pypdf := later) books_dir fname = Ok text ->
  nonempty text = true ->
  update_error (mkDocument (path_join books_dir fname) fname (normalize_text text))
  = None ->
  merge (snapshot_of w1 index_dir)
        (stage_all (pypdf := later) books_dir (filter is_pdf names) [])
  = Ok post ->
  exists w2,
    index_pdfs (pypdf := later) books_dir index_dir w1 = (Ok tt, w2)
    /\ index_store w2 index_dir = Some post
    /\ entries (path_join books_dir fname) post
       = [mkDocument (path_join books_dir fname) fname (normalize_text text)].
Proof.
  intros Hdir Hwr Hfirst Hls Hin Hpdf Hown Htext Hne Hup Hm.
  assert (Hwr1 : writer w1 = None).
  { destruct (index_pdfs_run (pypdf := earlier) books_dir index_dir w Hdir Hwr)
      as (w1' & Hrun & Hw & _).
    rewrite Hfirst in Hrun. now injection Hrun as ->. }
  destruct (index_pdfs_run (pypdf := later) books_dir index_dir w1 Hdir Hwr1)
    as (w2 & Hrun & _ & Hix & _).
  exists w2. split; [exact Hrun|].
  unfold run_summary in Hix. rewrite Hls, Hm in Hix. simpl in Hix.
  split; [exact Hix|].
  set (doc := mkDocument (path_join books_dir fname) fname (normalize_text text)).
  assert (Ho : outcome (pypdf := later) books_dir fname = Indexed doc).
  { unfold outcome. rewrite Htext, Hne. cbv zeta. fold doc.
    unfold doc at 1. now rewrite Hup. }
  change (path_join books_dir fname) with (path doc) at 1.
  eapply merge_entries_single; [|exact Hm].
  apply (stage_all_entries_single (pypdf := later) books_dir _ fname doc [] Ho).
  - intros f Hf. apply Hown. now apply filter_In in Hf as [Hf _].
  - left. now apply filter_In.
Qed.

End Reindexing.

(** ** Searching *)

Section Searching.

Context {Score : Type} {nltk : Nltk} {python : Python} {pypdf : PyPdf}
        {whoosh : Whoosh Score}.

(** A search of an index that opens returns normally and delivers one
    list: [search_summary] on the normalized query tells which. *)
Lemma search_index_run index_dir query_string (w : World Score) snap :
  index_store w index_dir = Some snap ->
  search_index index_dir query_string w
  = (Ok tt,
     mkWorld (index_store w) (writer w)
       (status_log w
          ++ fst (search_summary snap query_string (normalize_text query_string)))
       (results_log w
          ++ [snd (search_summary snap query_string (normalize_text query_string))])
       (buttons_enabled w)).
Proof.
  intros Hix. destruct w as [store wr said res b]. simpl in *.
  unfold search_index, open_dir, bind, get, ret, raise. simpl. rewrite Hix.
  unfold try_finally, try_except, ix_close, ret, search_summary, bind, get,
    lift, status_callback, results_callback, modify, snapshot_of.
  simpl. rewrite Hix.
  destruct (parse _) as [query|e]; simpl; [|reflexivity].
  destruct (search snap query 50) as [results|e]; simpl;
    [|now rewrite <- app_assoc].
  destruct (collect_hits _ _) as [results_list|e]; simpl;
    now rewrite <- !app_assoc.
Qed.

(** A search of a directory without an index says so and delivers the
    empty list. *)
Lemma search_index_unavailable index_dir query_string (w : World Score) :
  index_store w index_dir = None ->
  search_index index_dir query_string w
  = (Ok tt,
     mkWorld (index_store w) (writer w)
             (status_log w ++ [(IndexEmptyOrNotFound, Error)])
             (results_log w ++ [[]]) (buttons_enabled w)).
Proof.
  intros Hix. unfold search_index, open_dir, bind, get, ret, raise.
  rewrite Hix. reflexivity.
Qed.

(** C3. A search of an index directory in which no index was ever created
    returns normally: it reports that the index is empty or not found, a
    message of its own that no other failure of a search produces, and
    delivers the empty result list; nothing else changes.  The same holds
    when the search is started from the application, which enables its
    buttons again. *)
Theorem search_without_index_is_reported index_dir query_string (w : World Score) :
  index_store w index_dir = None ->
  search_index index_dir query_string w
  = (Ok tt,
     mkWorld (index_store w) (writer w)
             (status_log w ++ [(IndexEmptyOrNotFound, Error)])
             (results_log w ++ [[]]) (buttons_enabled w))
  /\ (forall e, IndexEmptyOrNotFound <> ErrorDuringSearch e)
  /\ (index_dir = INDEX_DIR ->
      _run_search query_string w
      = (Ok tt,
         mkWorld (index_store w) (writer w)
                 (status_log w ++ [(IndexEmptyOrNotFound, Error)])
                 (results_log w ++ [[]]) true)).
Proof.
  intros Hix. split; [now apply search_index_unavailable|].
  split; [discriminate|].
  intros ->. unfold _run_search, try_finally.
  rewrite (search_index_unavailable _ _ _ Hix). reflexivity.
Qed.

(** C1. Indexing and searching normalize with the same function.  The
    content staged for a file is its extracted text tokenized, with every
    token lowercased, stemmed and lemmatized, and joined by spaces; the
    string the query parser is given is the query string treated in the
    same way; so a token that occurs in both gives the same term in the
    index and in the query. *)
Theorem same_normalizer_at_index_and_query_time
    books_dir fname text query_string :
  extracted_text_of books_dir fname = Ok text ->
  nonempty text = true ->
  update_error (mkDocument (path_join books_dir fname) fname (normalize_text text))
  = None ->
  let term := fun token => lemmatize (stem (lower token)) in
  (forall total_files i c store ix docs said res b,
     index_file books_dir total_files i fname c
       (mkWorld store (Some (mkWriter ix docs)) said res b)
     = (Ok (mkCounters (indexed_files c + 1) (error_files c)),
        mkWorld store
          (Some (mkWriter ix
             (upsert schema
                (mkDocument (path_join books_dir fname) fname
                   (String.concat " " (map term (word_tokenize text))))
                docs)))
          (said ++ [(IndexingFile (i + 1) total_files fname, Info)]) res b))
  /\ (forall index_dir (w : World Score) snap,
        index_store w index_dir = Some snap ->
        let found :=
          search_summary snap query_string
            (String.concat " " (map term (word_tokenize query_string))) in
        search_index index_dir query_string w
        = (Ok tt,
           mkWorld (index_store w) (writer w) (status_log w ++ fst found)
                   (results_log w ++ [snd found]) (buttons_enabled w)))
  /\ (forall i j token,
        nth_error (word_tokenize text) i = Some token ->
        nth_error (word_tokenize query_string) j = Some token ->
        nth_error (normalize_tokens text) i = Some (term token)
        /\ nth_error (normalize_tokens query_string) j = Some (term token)).
Proof.
  intros Htext Hne Hup term.
  assert (Hnorm : forall s,
             normalize_text s = String.concat " " (map term (word_tokenize s)))
    by (intros s; unfold normalize_text; now rewrite normalize_tokens_map).
  split; [|split].
  - intros. rewrite index_file_run.
    unfold count_file, stage_file, file_log, outcome.
    rewrite Htext, Hne. cbv zeta. rewrite Hup, <- Hnorm. reflexivity.
  - intros index_dir w snap Hix found. subst found. rewrite <- Hnorm.
    now apply search_index_run.
  - intros i j token Hi Hj. rewrite !normalize_tokens_map.
    split; now apply map_nth_error.
Qed.


End Searching.

(** ** Normalizing again *)

Section Renormalizing.

Context {nltk : Nltk} {python : Python}.

(** C9, as the code has it.  Normalizing the output of [normalize_text]
    again changes nothing when NLTK is stable on that output: when the
    tokenizer splits the joined string into the terms it was joined from and
    lowercasing, stemming and lemmatizing leave each of these terms as it
    is.  The module adds nothing of its own to make this so. *)
Theorem renormalizing_stable_terms (text : string) :
  word_tokenize (normalize_text text) = normalize_tokens text ->
  (forall term, In term (normalize_tokens text) ->
                lemmatize (stem (lower term)) = term) ->
  normalize_tokens (normalize_text text) = normalize_tokens text
  /\ normalize_text (normalize_text text) = normalize_text text.
Proof.
  intros Htok Hstable.
  assert (Hterms : normalize_tokens (normalize_text text) = normalize_tokens text).
  { rewrite (normalize_tokens_map (normalize_text text)), Htok.
    rewrite <- (map_id (normalize_tokens text)) at 2.
    apply map_ext_in. exact Hstable. }
  split; [exact Hterms|].
  unfold normalize_text at 1 3. now rewrite Hterms.
Qed.

End Renormalizing.

(** * The sample installation at work *)

Section Examples.

Existing Instance sample_nltk.
Existing Instance sample_python.
Existing Instance sample_pypdf.
Existing Instance sample_whoosh.

Example normalize_sample :
  normalize_text "Dogs running  Agreed" = "dog run agre".
Proof. reflexivity. Qed.

Example index_sample :
  exists w,
    index_pdfs "books" "whoosh_index" fresh_world = (Ok tt, w)
    /\ index_store w "whoosh_index"
       = Some [mkDocument "books/a.pdf" "a.pdf" "dog run";
               mkDocument "books/B.PDF" "B.PDF" "agre"]
    /\ nth_error (status_log w) 9 = Some (IndexingComplete 2 2, Success).
Proof. eexists. split; [vm_compute; reflexivity|]. split; reflexivity. Qed.

(** The text of [a.pdf] and a query share the token [Dogs]: both get the
    term [dog]. *)
Lemma same_normalizer_witness :
  extracted_text_of "books" "a.pdf" = Ok ("Dogs running" ++ newline)%string
  /\ nth_error (normalize_tokens ("Dogs running" ++ newline)) 0 = Some "dog"
  /\ nth_error (normalize_tokens "walking Dogs") 1 = Some "dog".
Proof.
  split; [reflexivity|].
  destruct (same_normalizer_at_index_and_query_time
              (Score := nat) (whoosh := sample_whoosh)
              "books" "a.pdf" ("Dogs running" ++ newline)%string "walking Dogs")
    as (_ & _ & Hterm); try (vm_compute; reflexivity).
  apply (Hterm 0 1 "Dogs"); reflexivity.
Defined.

(** The storage fails while the second document is merged: the older
    version of [a.pdf] is still what the index holds. *)
Lemma commit_all_or_nothing_witness :
  isdir "books" = true
  /\ writer indexed_world = None
  /\ exists w',
       index_pdfs (whoosh := failing_whoosh) "books" "whoosh_index" indexed_world
       = (Ok tt, w')
       /\ writer w' = None
       /\ index_store w' "whoosh_index"
          = Some [mkDocument "books/a.pdf" "a.pdf" "old text"].
Proof.
  split; [reflexivity|]. split; [reflexivity|].
  destruct (commit_all_or_nothing (whoosh := failing_whoosh)
              "books" "whoosh_index" indexed_world)
    as (w' & new & Hrun & _ & Hwr & _ & Hcase & _); try reflexivity.
  exists w'. split; [exact Hrun|]. split; [exact Hwr|].
  exact (proj1 Hcase).
Defined.

Lemma search_without_index_witness :
  index_store fresh_world "whoosh_index" = None
  /\ search_index "whoosh_index" "dogs" fresh_world
     = (Ok tt,
        mkWorld (index_store fresh_world) None [(IndexEmptyOrNotFound, Error)]
                [[]] true).
Proof.
  split; [reflexivity|].
  destruct (search_without_index_is_reported "whoosh_index" "dogs" fresh_world)
    as (Hsearch & _); [reflexivity|].
  exact Hsearch.
Defined.

(** [a.pdf] is indexed with one text, then again with another: one entry,
    with the terms of the second text. *)
Lemma upsert_replaces_witness :
  let w1 := snd (index_pdfs "books" "whoosh_index" fresh_world) in
  snapshot_of w1 "whoosh_index"
  = [mkDocument "books/a.pdf" "a.pdf" "dog run";
     mkDocument "books/B.PDF" "B.PDF" "agre"]
  /\ exists w2,
       index_pdfs (pypdf := sample_pypdf_later) "books" "whoosh_index" w1
       = (Ok tt, w2)
       /\ entries "books/a.pdf" (snapshot_of w2 "whoosh_index")
          = [mkDocument "books/a.pdf" "a.pdf" "mouse"].
Proof.
  intros w1. split; [reflexivity|].
  destruct (upsert_replaces_never_duplicates sample_pypdf sample_pypdf_later
              "books" "whoosh_index" fresh_world w1
              sample_listing "a.pdf" ("Mice" ++ newline)%string
              [mkDocument "books/a.pdf" "a.pdf" "mouse";
               mkDocument "books/B.PDF" "B.PDF" "agre"])
    as (w2 & Hrun & Hix & Hentries); try (vm_compute; reflexivity).
  - now left.
  - intros f [<- | [<- | [<- | [<- | [<- | []]]]]]; intros Hp;
      try reflexivity; vm_compute in Hp; discriminate Hp.
  - exists w2. split; [exact Hrun|].
    unfold snapshot_of. rewrite Hix. reflexivity.
Defined.

Lemma empty_text_is_skipped_witness :
  extracted_text_of "books" "empty.pdf" = Ok EmptyString
  /\ exists w' new,
       index_pdfs "books" "whoosh_index" fresh_world = (Ok tt, w')
       /\ status_log w' = new
       /\ In (NoTextExtracted "empty.pdf", Error) new
       /\ entries "books/empty.pdf" (snapshot_of w' "whoosh_index") = [].
Proof.
  split; [reflexivity|].
  destruct (empty_text_is_skipped "books" "whoosh_index" fresh_world
              sample_listing "empty.pdf")
    as (_ & w' & new & Hrun & Hsaid & Hwarn & Hentries);
    try (vm_compute; reflexivity).
  - do 3 right. now left.
  - intros f [<- | [<- | [<- | [<- | [<- | []]]]]]; intros Hp;
      try reflexivity; vm_compute in Hp; discriminate Hp.
  - exists w', new. repeat split; assumption.
Defined.

Lemma counters_partition_witness :
  listdir "books" = Ok sample_listing
  /\ length (filter is_pdf sample_listing) = 4
  /\ exists w' new,
       index_pdfs "books" "whoosh_index" fresh_world = (Ok tt, w')
       /\ status_log w' = new
       /\ In (IndexingComplete 2 2, Success) new
       /\ (forall i e, In (IndexingComplete i e, Success) new -> i + e = 4).
Proof.
  split; [reflexivity|]. split; [reflexivity|].
  destruct (counters_partition_pdf_files "books" "whoosh_index" fresh_world
              sample_listing)
    as (w' & new & Hrun & Hsaid & _ & Hsum & _); try reflexivity.
  exists w', new. repeat split; try assumption.
  - vm_compute in Hrun. injection Hrun as <-. simpl in Hsaid. subst new.
    do 9 right. now left.
  - intros i e Hin. exact (proj2 (proj2 (Hsum i e Hin))).
Defined.


(** The stem of [agreed] is stemmed further when it is read again. *)
Lemma renormalizing_agreed_changes_the_term :
  normalize_text "agreed" = "agre"
  /\ normalize_text (normalize_text "agreed") = "agr"
  /\ normalize_tokens (normalize_text "agreed") <> normalize_tokens "agreed".
Proof. repeat split; try reflexivity. vm_compute. discriminate. Qed.

Lemma renormalizing_stable_terms_witness :
  word_tokenize (normalize_text "Dogs running") = normalize_tokens "Dogs running"
  /\ normalize_text (normalize_text "Dogs running") = normalize_text "Dogs running".
Proof.
  split; [reflexivity|].
  apply (renormalizing_stable_terms "Dogs running"); [reflexivity|].
  intros term [<- | [<- | []]]; reflexivity.
Defined.

End Examples.

(** * More properties of the module *)

(** ** More on one run of [index_pdfs] *)

Section IndexingMore.

Context {Score : Type} {nltk : Nltk} {python : Python} {pypdf : PyPdf}
        {whoosh : Whoosh Score}.

(** X1. When the books directory does not exist, [index_pdfs] only says so:
    it returns normally, opens no writer and creates no index, so that a
    search of an index directory that had no index still reports the index
    as not found. *)
Theorem index_pdfs_without_books_dir books_dir index_dir query_string
    (w : World Score) :
  isdir books_dir = false ->
  index_pdfs books_dir index_dir w
  = (Ok tt,
     mkWorld (index_store w) (writer w)
             (status_log w ++ [(BooksDirNotFound books_dir, Error)])
             (results_log w) (buttons_enabled w))
  /\ (index_store w index_dir = None ->
      forall w', index_pdfs books_dir index_dir w = (Ok tt, w') ->
      search_index index_dir query_string w'
      = (Ok tt,
         mkWorld (index_store w) (writer w)
                 (status_log w' ++ [(IndexEmptyOrNotFound, Error)])
                 (results_log w ++ [[]]) (buttons_enabled w))).
Proof.
  intros Hdir.
  assert (Hrun : index_pdfs books_dir index_dir w
                 = (Ok tt,
                    mkWorld (index_store w) (writer w)
                            (status_log w ++ [(BooksDirNotFound books_dir, Error)])
                            (results_log w) (buttons_enabled w))).
  { unfold index_pdfs. rewrite Hdir. reflexivity. }
  split; [exact Hrun|].
  intros Hix w' Hw'. rewrite Hrun in Hw'. injection Hw' as <-.
  now rewrite search_index_unavailable.
Qed.



(** *** What a run puts into the index *)

Lemma In_upsert doc d docs :
  In d (upsert schema doc docs) -> d = doc \/ In d docs.
Proof.
  unfold upsert. simpl. intros Hin.
  apply in_app_or in Hin as [Hin | [<- | []]]; auto.
  apply filter_In in Hin as [Hin _]. auto.
Qed.

Lemma In_merge docs :
  forall pre post d,
    merge pre docs = Ok post -> In d post -> In d pre \/ In d docs.
Proof.
  induction docs as [|doc docs IH]; intros pre post d Hm Hin; simpl in Hm.
  - injection Hm as <-. auto.
  - destruct (merge_error doc); [discriminate|].
    destruct (IH _ _ _ Hm Hin) as [Hup | Hdocs]; [|right; now right].
    apply In_upsert in Hup as [-> | Hpre]; [right; now left | now left].
Qed.

Lemma In_stage_all books_dir files :
  forall docs d,
    In d (stage_all books_dir files docs) ->
    In d docs \/ exists f, In f files /\ outcome books_dir f = Indexed d.
Proof.
  induction files as [|f rest IH]; intros docs d Hin; simpl in Hin.
  - auto.
  - destruct (IH _ _ Hin) as [Hst | (g & Hg & Ho)].
    + unfold stage_file in Hst.
      destruct (outcome books_dir f) as [doc| |e] eqn:Ho; auto.
      apply In_upsert in Hst as [-> | Hdocs]; auto.
      right. exists f. split; [now left | exact Ho].
    + right. exists g. split; [now right | exact Ho].
Qed.

(** The document of a file carries its name, its full path and the
    normalized form of a non-empty extracted text. *)
Lemma outcome_indexed books_dir fname doc :
  outcome books_dir fname = Indexed doc ->
  exists text,
    extracted_text_of books_dir fname = Ok text
    /\ nonempty text = true
    /\ doc = mkDocument (path_join books_dir fname) fname (normalize_text text).
Proof.
  unfold outcome. destruct (extracted_text_of books_dir fname) as [text|];
    [|discriminate].
  destruct (nonempty text) eqn:Hne; [|discriminate].
  destruct (update_error _); [discriminate|].
  intros [= <-]. eauto.
Qed.

(** X3. A run indexes PDF files only.  Every document the index holds
    after a run was there before, or is the document of a listed file whose
    lowercased name ends in [.pdf]: it carries the name of the file, the
    path joined from the books directory and the name, and as content the
    normalized form of the text extracted from that file, which was not
    empty. *)
Theorem only_pdf_files_are_indexed books_dir index_dir (w : World Score) names :
  isdir books_dir = true ->
  writer w = None ->
  listdir books_dir = Ok names ->
  exists w',
    index_pdfs books_dir index_dir w = (Ok tt, w')
    /\ forall d,
         In d (snapshot_of w' index_dir) ->
         In d (snapshot_of w index_dir)
         \/ (In (filename d) names
             /\ is_pdf (filename d) = true
             /\ path d = path_join books_dir (filename d)
             /\ exists text,
                  extracted_text_of books_dir (filename d) = Ok text
                  /\ nonempty text = true
                  /\ content d = normalize_text text).
Proof.
  intros Hdir Hwr Hls.
  destruct (index_pdfs_run books_dir index_dir w Hdir Hwr)
    as (w' & Hrun & _ & Hix & _).
  exists w'. split; [exact Hrun|].
  unfold snapshot_of at 1. rewrite Hix. unfold run_summary. rewrite Hls.
  destruct (merge _ _) as [post|e] eqn:Hm; simpl; [|auto].
  intros d Hin.
  destruct (In_merge _ _ _ _ Hm Hin) as [Hpre | Hst]; [now left|].
  apply In_stage_all in Hst as [[] | (f & Hf & Ho)].
  apply filter_In in Hf as [Hf Hpdf].
  apply outcome_indexed in Ho as (text & Htext & Hne & ->). simpl.
  right. repeat split; auto. eauto.
Qed.

(** X4. A run never deletes.  The entries under a path that no listed PDF
    file has are after the run what they were before it, so that the
    documents of files that have left the books directory stay in the
    index. *)
Theorem untouched_paths_are_kept books_dir index_dir (w : World Score) names p :
  isdir books_dir = true ->
  writer w = None ->
  listdir books_dir = Ok names ->
  (forall f, In f names -> is_pdf f = true -> path_join books_dir f <> p) ->
  exists w',
    index_pdfs books_dir index_dir w = (Ok tt, w')
    /\ entries p (snapshot_of w' index_dir) = entries p (snapshot_of w index_dir).
Proof.
  intros Hdir Hwr Hls Hother.
  destruct (index_pdfs_run books_dir index_dir w Hdir Hwr)
    as (w' & Hrun & _ & Hix & _).
  exists w'. split; [exact Hrun|].
  unfold snapshot_of at 1. rewrite Hix. unfold run_summary. rewrite Hls.
  destruct (merge _ _) as [post|e] eqn:Hm; simpl; [|reflexivity].
  eapply merge_entries_none; [|exact Hm].
  rewrite stage_all_entries_other; [reflexivity|].
  intros f doc Hf Ho. apply filter_In in Hf as [Hf Hpdf].
  destruct (has_path p doc) eqn:Hp; [|reflexivity].
  apply has_path_true in Hp.
  rewrite (outcome_indexed_path _ _ _ Ho) in Hp.
  now destruct (Hother f Hf Hpdf).
Qed.

End IndexingMore.

(** ** More on the messages of a run *)

Section MessagesOfARun.

Context {Score : Type} {nltk : Nltk} {python : Python} {pypdf : PyPdf}
        {whoosh : Whoosh Score}.

Lemma loop_log_progress books_dir total_files files :
  forall i,
    filter is_progress (loop_log books_dir total_files i files)
    = map (fun nf => (IndexingFile (fst nf + 1) total_files (snd nf), Info))
          (combine (seq i (length files)) files).
Proof.
  induction files as [|f rest IH]; intros i; simpl.
  - reflexivity.
  - rewrite filter_app, IH. f_equal.
    destruct (outcome books_dir f); reflexivity.
Qed.

(** X5. A run announces every PDF file once, in the order of the listing:
    the progress messages of the run are [Indexing (1/n)], [Indexing (2/n)],
    ... up to [Indexing (n/n)], with [n] the number of PDF files, each with
    the name of the file at that place. *)
Theorem progress_counts_the_pdf_files books_dir index_dir (w : World Score) names :
  isdir books_dir = true ->
  writer w = None ->
  listdir books_dir = Ok names ->
  let all_files := filter is_pdf names in
  exists w' new,
    index_pdfs books_dir index_dir w = (Ok tt, w')
    /\ status_log w' = status_log w ++ new
    /\ filter is_progress new
       = map (fun nf => (IndexingFile (fst nf + 1) (length all_files) (snd nf), Info))
             (combine (seq 0 (length all_files)) all_files).
Proof.
  intros Hdir Hwr Hls all_files.
  destruct (index_pdfs_run books_dir index_dir w Hdir Hwr)
    as (w' & Hrun & _ & _ & _ & Hsaid & _).
  exists w', (snd (run_summary books_dir (snapshot_of w index_dir))).
  split; [exact Hrun|]. split; [exact Hsaid|].
  unfold run_summary. rewrite Hls. fold all_files.
  destruct (merge _ _); simpl; rewrite !filter_app, loop_log_progress; simpl;
    now rewrite !app_nil_r.
Qed.

Lemma loop_log_errors books_dir total_files files :
  forall i,
    length (filter is_error (loop_log books_dir total_files i files))
    = length (filter (fun f => negb (is_indexed (outcome books_dir f))) files).
Proof.
  induction files as [|f rest IH]; intros i; simpl.
  - reflexivity.
  - rewrite filter_app, length_app, IH.
    destruct (outcome books_dir f); reflexivity.
Qed.

Lemma loop_log_names_failures books_dir total_files files :
  forall i f,
    In f files ->
    match outcome books_dir f with
    | Indexed _ => True
    | Skipped => In (NoTextExtracted f, Error) (loop_log books_dir total_files i files)
    | Failed e => In (ErrorIndexing f e, Error) (loop_log books_dir total_files i files)
    end.
Proof.
  induction files as [|g rest IH]; intros i f Hin; [contradiction|].
  destruct Hin as [-> | Hin].
  - simpl. destruct (outcome books_dir f); auto; right; now left.
  - specialize (IH (S i) f Hin). simpl.
    destruct (outcome books_dir f); auto; right; apply in_or_app; now right.
Qed.

(** X6. No failure of a file is swallowed.  In a run that commits, the
    number of messages sent as errors is the second counter of the
    completion message, and every PDF file without text, and every PDF
    file on which reading, extracting or staging raised, is named in an
    error message, the latter with its exception. *)
Theorem every_failure_is_reported books_dir index_dir (w : World Score)
    names post :
  isdir books_dir = true ->
  writer w = None ->
  listdir books_dir = Ok names ->
  merge (snapshot_of w index_dir) (stage_all books_dir (filter is_pdf names) [])
  = Ok post ->
  exists w' new i e,
    index_pdfs books_dir index_dir w = (Ok tt, w')
    /\ status_log w' = status_log w ++ new
    /\ In (IndexingComplete i e, Success) new
    /\ length (filter is_error new) = e
    /\ (forall f, In f names -> is_pdf f = true ->
                  extracted_text_of books_dir f = Ok EmptyString ->
                  In (NoTextExtracted f, Error) new)
    /\ (forall f ex, In f names -> is_pdf f = true ->
                     outcome books_dir f = Failed ex ->
                     In (ErrorIndexing f ex, Error) new).
Proof.
  intros Hdir Hwr Hls Hm.
  destruct (index_pdfs_run books_dir index_dir w Hdir Hwr)
    as (w' & Hrun & _ & _ & _ & Hsaid & _).
  exists w', (snd (run_summary books_dir (snapshot_of w index_dir))).
  unfold run_summary in *. rewrite Hls, Hm in *. simpl in *.
  set (all_files := filter is_pdf names) in *.
  set (c := count_all books_dir all_files (mkCounters 0 0)).
  exists (indexed_files c), (error_files c).
  split; [exact Hrun|]. split; [exact Hsaid|].
  assert (Hnamed : forall x,
             In x (loop_log books_dir (length all_files) 0 all_files) ->
             In x ((StartingIndexing, Info)
                   :: (FoundPdfFiles (length all_files) books_dir, Info)
                   :: (loop_log books_dir (length all_files) 0 all_files
                       ++ [(Committing (indexed_files c), Info)])
                      ++ [(IndexingComplete (indexed_files c) (error_files c),
                           Success)])).
  { intros x Hx. right; right. apply in_or_app. left. apply in_or_app. now left. }
  split; [|split; [|split]].
  - right; right. apply in_or_app. right. now left.
  - rewrite !filter_app, !length_app, loop_log_errors. simpl.
    destruct (count_all_counts books_dir all_files (mkCounters 0 0)) as [_ He].
    fold c in He. simpl in He. lia.
  - intros f Hf Hpdf Htext. apply Hnamed.
    assert (Hin : In f all_files) by (apply filter_In; auto).
    pose proof (loop_log_names_failures books_dir (length all_files) all_files
                  0 f Hin) as Hlog.
    unfold outcome in Hlog. now rewrite Htext in Hlog.
  - intros f ex Hf Hpdf Ho. apply Hnamed.
    assert (Hin : In f all_files) by (apply filter_In; auto).
    pose proof (loop_log_names_failures books_dir (length all_files) all_files
                  0 f Hin) as Hlog.
    now rewrite Ho in Hlog.
Qed.

End MessagesOfARun.

(** ** More on what a run leaves in the index *)

Section IndexAfterRuns.

Context {Score : Type} {nltk : Nltk} {python : Python} {pypdf : PyPdf}
        {whoosh : Whoosh Score}.



(** Under one path a merge leaves the entries there were, or one entry. *)
Lemma merge_entries_cases p docs :
  forall pre post,
    merge pre docs = Ok post ->
    entries p post = entries p pre \/ exists d, entries p post = [d].
Proof.
  induction docs as [|doc docs IH]; intros pre post Hm; simpl in Hm.
  - injection Hm as <-. now left.
  - destruct (merge_error doc); [discriminate|].
    destruct (IH _ _ Hm) as [Heq | Hone]; [|now right].
    rewrite Heq, entries_upsert. destruct (has_path p doc); eauto.
Qed.



(** X8. A run keeps the paths of the index unique: when no path has more
    than one entry before the run, no path has more than one entry after
    it. *)
Theorem paths_stay_unique books_dir index_dir (w : World Score) :
  isdir books_dir = true ->
  writer w = None ->
  (forall p, length (entries p (snapshot_of w index_dir)) <= 1) ->
  exists w',
    index_pdfs books_dir index_dir w = (Ok tt, w')
    /\ forall p, length (entries p (snapshot_of w' index_dir)) <= 1.
Proof.
  intros Hdir Hwr Huniq.
  destruct (index_pdfs_run books_dir index_dir w Hdir Hwr)
    as (w' & Hrun & _ & Hix & _).
  exists w'. split; [exact Hrun|]. intros p.
  unfold snapshot_of at 1. rewrite Hix. unfold run_summary.
  destruct (listdir books_dir) as [names|e]; [|apply Huniq].
  destruct (merge _ _) as [post|e] eqn:Hm; simpl; [|apply Huniq].
  destruct (merge_entries_cases p _ _ _ Hm) as [-> | [d ->]];
    [apply Huniq | simpl; lia].
Qed.

End IndexAfterRuns.

(** ** More on the text of a file *)

Lemma append_nil_r (s : string) : (s ++ EmptyString)%string = s.
Proof. induction s as [|c s IH]; simpl; [reflexivity | now rewrite IH]. Qed.

Lemma append_assoc (s t u : string) :
  ((s ++ t) ++ u)%string = (s ++ (t ++ u))%string.
Proof. induction s as [|c s IH]; simpl; [reflexivity | now rewrite IH]. Qed.

Lemma append_empty (s t : string) :
  (s ++ t)%string = EmptyString -> s = EmptyString /\ t = EmptyString.
Proof. destruct s; simpl; [auto | discriminate]. Qed.

(** A page adds nothing exactly when it has no text. *)
Lemma page_chunk_empty (page_text : option string) :
  page_chunk page_text = EmptyString
  <-> page_text = None \/ page_text = Some EmptyString.
Proof.
  destruct page_text as [[|c t]|]; simpl; split; auto.
  - discriminate.
  - intros [H | H]; discriminate.
Qed.

Lemma string_concat_empty (pieces : list string) :
  string_concat pieces = EmptyString
  <-> forall piece, In piece pieces -> piece = EmptyString.
Proof.
  induction pieces as [|p pieces IH]; simpl; split; auto.
  - intros _ piece [].
  - intros H. apply append_empty in H as [-> H].
    pose proof (proj1 IH H) as Hrest.
    intros piece [<- | Hin]; auto.
  - intros H. rewrite (H p (or_introl eq_refl)). simpl.
    apply (proj2 IH). intros piece Hin. apply H. now right.
Qed.

(** The page loop on pages that can all be read. *)
Lemma extract_pages_all_read (texts : list (option string)) :
  forall extracted_text,
    extract_pages (map Ok texts) extracted_text
    = Ok (extracted_text ++ string_concat (map page_chunk texts))%string.
Proof.
  induction texts as [|t texts IH]; intros acc; simpl.
  - now rewrite append_nil_r.
  - destruct t as [[|c t]|]; simpl; rewrite IH; try reflexivity.
    now rewrite append_assoc.
Qed.

(** The page loop stops at the first page that cannot be read. *)
Lemma extract_pages_torn (texts : list (option string)) e rest :
  forall extracted_text,
    extract_pages (map Ok texts ++ Raise e :: rest) extracted_text = Raise e.
Proof.
  induction texts as [|t texts IH]; intros acc; simpl.
  - reflexivity.
  - destruct t as [[|c t]|]; apply IH.
Qed.

Section TextOfAFile.

Context {Score : Type} {nltk : Nltk} {python : Python} {pypdf : PyPdf}
        {whoosh : Whoosh Score}.

(** X9. The text of a file whose pages can all be read is the texts of its
    pages that have one, in page order, each followed by a newline.  The
    file is skipped as having no text exactly when every page gives [None]
    or the empty string. *)
Theorem text_of_a_readable_file books_dir fname (texts : list (option string)) :
  PdfReader (path_join books_dir fname) = Ok (map Ok texts) ->
  extracted_text_of books_dir fname
  = Ok (string_concat (map page_chunk texts))
  /\ (outcome books_dir fname = Skipped
      <-> forall t, In t texts -> t = None \/ t = Some EmptyString).
Proof.
  intros Hread.
  assert (Htext : extracted_text_of books_dir fname
                  = Ok (string_concat (map page_chunk texts))).
  { unfold extracted_text_of. rewrite Hread.
    now rewrite extract_pages_all_read. }
  split; [exact Htext|].
  unfold outcome. rewrite Htext.
  assert (Hempty : string_concat (map page_chunk texts) = EmptyString
                   <-> forall t, In t texts -> t = None \/ t = Some EmptyString).
  { rewrite string_concat_empty. split.
    - intros H t Hin. apply page_chunk_empty. apply H. now apply in_map.
    - intros H piece Hin. apply in_map_iff in Hin as (t & <- & Hin).
      apply page_chunk_empty. now apply H. }
  destruct (string_concat (map page_chunk texts)) as [|c s] eqn:Hs; simpl.
  - split; [intros _; now apply Hempty | reflexivity].
  - split.
    + destruct (update_error _); discriminate.
    + intros H. apply Hempty in H. discriminate.
Qed.

(** X10. A page that cannot be read fails the whole file.  Whatever the
    pages before it gave, the body of the loop stages nothing for the file,
    adds one to [error_files] only, and reports the exception of the page
    under the name of the file. *)
Theorem torn_file_is_an_error books_dir fname (texts : list (option string))
    e rest :
  PdfReader (path_join books_dir fname) = Ok (map Ok texts ++ Raise e :: rest) ->
  forall total_files i c store ix docs said res b,
    index_file books_dir total_files i fname c
      (mkWorld store (Some (mkWriter ix docs)) said res b)
    = (Ok (mkCounters (indexed_files c) (error_files c + 1)),
       mkWorld (Score := Score) store (Some (mkWriter ix docs))
               (said ++ [(IndexingFile (i + 1) total_files fname, Info);
                         (ErrorIndexing fname e, Error)]) res b).
Proof.
  intros Hread. intros.
  assert (Ho : outcome books_dir fname = Failed e).
  { unfold outcome, extracted_text_of. rewrite Hread.
    now rewrite extract_pages_torn. }
  rewrite index_file_run. unfold count_file, stage_file, file_log.
  now rewrite Ho.
Qed.

(** X11. Whether a file is skipped is decided on the extracted text, not
    on its terms.  A file whose text is not empty but has no token, such as
    a page of white space, is indexed: its document is staged with the
    empty content and it counts as indexed. *)
Theorem text_without_tokens_is_indexed books_dir fname text :
  extracted_text_of books_dir fname = Ok text ->
  nonempty text = true ->
  word_tokenize text = [] ->
  update_error (mkDocument (path_join books_dir fname) fname EmptyString) = None ->
  forall total_files i c store ix docs said res b,
    index_file books_dir total_files i fname c
      (mkWorld store (Some (mkWriter ix docs)) said res b)
    = (Ok (mkCounters (indexed_files c + 1) (error_files c)),
       mkWorld (Score := Score) store
         (Some (mkWriter ix
            (upsert schema
               (mkDocument (path_join books_dir fname) fname EmptyString) docs)))
         (said ++ [(IndexingFile (i + 1) total_files fname, Info)]) res b).
Proof.
  intros Htext Hne Htok Hup. intros.
  assert (Hnorm : normalize_text text = EmptyString).
  { unfold normalize_text, normalize_tokens. now rewrite Htok. }
  rewrite index_file_run. unfold count_file, stage_file, file_log, outcome.
  rewrite Htext, Hne. cbv zeta. rewrite Hnorm, Hup. reflexivity.
Qed.

End TextOfAFile.

(** ** More on searching *)

Section SearchingMore.

Context {Score : Type} {nltk : Nltk} {python : Python} {pypdf : PyPdf}
        {whoosh : Whoosh Score}.

(** The loop over the hits, when every highlight is computed. *)
Lemma collect_hits_all (hits : list (Hit Score)) :
  forall highlights results_list,
    map hit_highlights hits = map Ok highlights ->
    collect_hits hits results_list
    = Ok (results_list
          ++ map (fun hh => result_of_hit (fst hh) (snd hh))
                 (combine hits highlights)).
Proof.
  induction hits as [|hit hits IH]; intros [|h highlights] acc Hhl;
    simpl in *; try discriminate.
  - now rewrite app_nil_r.
  - injection Hhl as Hh Hhl. rewrite Hh, (IH _ _ Hhl), <- app_assoc.
    reflexivity.
Qed.

(** The loop over the hits, when a highlight raises. *)
Lemma collect_hits_torn (before : list (Hit Score)) hit after e :
  forall highlights results_list,
    map hit_highlights before = map Ok highlights ->
    hit_highlights hit = Raise e ->
    collect_hits (before ++ hit :: after) results_list = Raise e.
Proof.
  induction before as [|h0 before IH]; intros [|h highlights] acc Hhl He;
    simpl in *; try discriminate.
  - now rewrite He.
  - injection Hhl as Hh Hhl. rewrite Hh. eapply IH; eauto.
Qed.

(** Every entry the loop appends has a snippet that is not empty. *)
Lemma collect_hits_snippets (hits : list (Hit Score)) :
  forall results_list results,
    collect_hits hits results_list = Ok results ->
    Forall (fun r => nonempty (res_highlight r) = true) results_list ->
    Forall (fun r => nonempty (res_highlight r) = true) results
    /\ length results = length results_list + length hits.
Proof.
  induction hits as [|hit hits IH]; intros acc results Hc Hacc; simpl in *.
  - injection Hc as <-. split; [exact Hacc | lia].
  - destruct (hit_highlights hit) as [h|e]; [|discriminate].
    apply IH in Hc as [Hall Hlen].
    + split; [exact Hall|]. rewrite Hlen, length_app. simpl. lia.
    + apply Forall_app. split; [exact Hacc|]. constructor; [|constructor].
      simpl. destruct (nonempty h) eqn:Hh; [exact Hh | reflexivity].
Qed.


(** X13. A search that succeeds delivers its hits as they come: one entry
    per hit, in the order of the hits, with the stored file name and path
    and the score of the hit, and with its highlight, or with the
    placeholder when the highlight is empty.  The count it reports is the
    one Whoosh gives for the results, not the number of entries.  *)
Theorem results_mirror_the_hits index_dir query_string (w : World Score)
    snap query total hits highlights :
  index_store w index_dir = Some snap ->
  parse (normalize_text query_string) = Ok query ->
  search snap query 50 = Ok (total, hits) ->
  map hit_highlights hits = map Ok highlights ->
  search_index index_dir query_string w
  = (Ok tt,
     mkWorld (index_store w) (writer w)
       (status_log w ++ [(RunningQuery query_string, Info);
                         (FoundResults total, Info)])
       (results_log w
          ++ [map (fun hh => result_of_hit (fst hh) (snd hh))
                  (combine hits highlights)])
       (buttons_enabled w)).
Proof.
  intros Hix Hparse Hsearch Hhl.
  rewrite (search_index_run _ _ _ _ Hix). unfold search_summary.
  rewrite Hparse, Hsearch. simpl.
  now rewrite (collect_hits_all hits highlights [] Hhl).
Qed.

(** X14. A search that fails delivers nothing of what it found.  When the
    parser raises, the error is the only message; when the searcher raises,
    it follows the announcement of the query; when a highlight raises, it
    follows the count of the results, and the entries of the hits before
    it are dropped: in each case the list delivered is empty. *)
Theorem failed_search_delivers_nothing index_dir query_string (w : World Score)
    snap :
  index_store w index_dir = Some snap ->
  let delivers said :=
    search_index index_dir query_string w
    = (Ok tt,
       mkWorld (index_store w) (writer w) (status_log w ++ said)
               (results_log w ++ [[]]) (buttons_enabled w)) in
  (forall e,
     parse (normalize_text query_string) = Raise e ->
     delivers [(ErrorDuringSearch e, Error)])
  /\ (forall query e,
        parse (normalize_text query_string) = Ok query ->
        search snap query 50 = Raise e ->
        delivers [(RunningQuery query_string, Info);
                  (ErrorDuringSearch e, Error)])
  /\ (forall query total before hit after highlights e,
        parse (normalize_text query_string) = Ok query ->
        search snap query 50 = Ok (total, before ++ hit :: after) ->
        map hit_highlights before = map Ok highlights ->
        hit_highlights hit = Raise e ->
        delivers [(RunningQuery query_string, Info);
                  (FoundResults total, Info);
                  (ErrorDuringSearch e, Error)]).
Proof.
  intros Hix delivers. subst delivers. cbv beta.
  rewrite (search_index_run _ _ _ _ Hix). unfold search_summary.
  split; [|split].
  - intros e ->. reflexivity.
  - intros query e -> ->. reflexivity.
  - intros query total before hit after highlights e -> -> Hhl He. simpl.
    now rewrite (collect_hits_torn before hit after e highlights [] Hhl He).
Qed.

(** X15. No entry is ever delivered with an empty snippet, and no search
    delivers more entries than the searcher returned hits. *)
Theorem snippets_are_never_empty index_dir query_string (w w' : World Score) :
  search_index index_dir query_string w = (Ok tt, w') ->
  exists results,
    results_log w' = results_log w ++ [results]
    /\ Forall (fun r => nonempty (res_highlight r) = true) results
    /\ (forall snap query found,
          index_store w index_dir = Some snap ->
          parse (normalize_text query_string) = Ok query ->
          search snap query 50 = Ok found ->
          length results <= length (snd found)).
Proof.
  intros Hrun.
  destruct (index_store w index_dir) as [snap|] eqn:Hix.
  - rewrite (search_index_run _ _ _ _ Hix) in Hrun. injection Hrun as <-.
    eexists. split; [reflexivity|]. unfold search_summary.
    destruct (parse _) as [query|e]; simpl.
    + destruct (search snap query 50) as [found|e] eqn:Hs; simpl.
      * destruct (collect_hits _ _) as [results_list|e] eqn:Hc; simpl.
        -- apply collect_hits_snippets in Hc as [Hall Hlen]; [|constructor].
           split; [exact Hall|].
           intros snap' query' found' [= <-] [= <-]. rewrite Hs.
           intros [= <-]. simpl in Hlen. lia.
        -- split; [constructor | intros; simpl; lia].
      * split; [constructor | intros; simpl; lia].
    + split; [constructor | intros; simpl; lia].
  - rewrite (search_index_unavailable _ _ _ Hix) in Hrun. injection Hrun as <-.
    eexists. split; [reflexivity|]. split; [constructor|]. discriminate.
Qed.

End SearchingMore.

(** ** More on the application *)

(** *** [strip] *)












Section Application.

Context {Score : Type} {nltk : Nltk} {python : Python} {pypdf : PyPdf}
        {whoosh : Whoosh Score}.


(** The buttons are enabled when a worker is over, and what the work
    returned or raised is what the worker returns or raises. *)
Lemma worker_enables_buttons {A} (m : M Score A) (w : World Score) :
  fst (try_finally m _enable_buttons w) = fst (m w)
  /\ buttons_enabled (snd (try_finally m _enable_buttons w)) = true
  /\ index_store (snd (try_finally m _enable_buttons w)) = index_store (snd (m w))
  /\ writer (snd (try_finally m _enable_buttons w)) = writer (snd (m w))
  /\ status_log (snd (try_finally m _enable_buttons w)) = status_log (snd (m w))
  /\ results_log (snd (try_finally m _enable_buttons w)) = results_log (snd (m w)).
Proof.
  unfold try_finally, _enable_buttons, set_buttons, modify.
  destruct (m w) as [r w']. simpl. repeat split.
Qed.

(** X18. The indexing worker always gives the buttons back.  Started from
    the application, indexing disables the buttons, and when it is over
    they are enabled, also when [index_pdfs] raises.  It does raise when
    the writer cannot be opened, which happens before its [try]: the
    exception leaves [index_pdfs], no fatal error is reported, and the open
    writer is left alone. *)
Theorem indexing_worker_enables_buttons current_books_dir (w : World Score) :
  buttons_enabled (snd (start_indexing_thread current_books_dir w)) = true
  /\ (isdir current_books_dir = true ->
      forall wr,
        writer w = Some wr ->
        exists e w',
          start_indexing_thread current_books_dir w = (Raise e, w')
          /\ writer w' = Some wr
          /\ status_log w' = status_log w ++ [(StartingIndexingProcess, Info)]).
Proof.
  unfold start_indexing_thread, _run_indexing.
  unfold bind at 1. unfold update_status, status_callback, modify at 1.
  unfold bind at 1. unfold set_buttons at 1. unfold modify at 1.
  cbn beta iota. split.
  - apply worker_enables_buttons.
  - intros Hdir wr Hwr.
    unfold bind at 1. unfold modify at 1.
    unfold bind at 1. unfold set_buttons at 1. unfold modify at 1.
    cbn beta iota.
    unfold try_finally, index_pdfs. rewrite Hdir. cbn [negb].
    unfold bind at 1.
    match goal with
    | |- context [create_or_open_index INDEX_DIR ?w0] =>
        destruct (create_or_open_index_run INDEX_DIR w0)
          as (w1 & Hopen & _ & _ & Hwr1 & Hsaid & _)
    end.
    rewrite Hopen.
    unfold bind at 1. unfold ix_writer, bind, get, raise. simpl in *.
    rewrite Hwr1, Hwr. simpl.
    do 2 eexists. split; [reflexivity|]. simpl.
    split; [congruence | exact Hsaid].
Qed.

End Application.

(** ** More on the normalizer and on the choice of files *)

Section NormalizerMore.

Context {nltk : Nltk} {python : Python}.

(** X19. Normalization ignores case: two texts whose tokens are the same
    once lowercased have the same normalized text. *)
Theorem normalization_ignores_case (a b : string) :
  map lower (word_tokenize a) = map lower (word_tokenize b) ->
  normalize_tokens a = normalize_tokens b
  /\ normalize_text a = normalize_text b.
Proof.
  intros Hlow.
  assert (Hterms : normalize_tokens a = normalize_tokens b).
  { rewrite !normalize_tokens_map.
    rewrite <- (map_map lower (fun t => lemmatize (stem t)) (word_tokenize a)).
    rewrite <- (map_map lower (fun t => lemmatize (stem t)) (word_tokenize b)).
    now rewrite Hlow. }
  split; [exact Hterms|]. unfold normalize_text. now rewrite Hterms.
Qed.

End NormalizerMore.

Lemma length_append (s t : string) :
  String.length (s ++ t) = String.length s + String.length t.
Proof. induction s as [|c s IH]; simpl; [reflexivity | now rewrite IH]. Qed.

Lemma substring_whole (s : string) : substring 0 (String.length s) s = s.
Proof. induction s as [|c s IH]; simpl; [reflexivity | now rewrite IH]. Qed.

Lemma substring_skip (p s : string) (m : nat) :
  substring (String.length p) m (p ++ s) = substring 0 m s.
Proof. induction p as [|c p IH]; simpl; [reflexivity | exact IH]. Qed.

Lemma substring_split (s : string) :
  forall n m,
    n + m = String.length s ->
    s = (substring 0 n s ++ substring n m s)%string.
Proof.
  induction s as [|c s IH]; intros [|n] m Hlen; simpl in *.
  - destruct m; reflexivity.
  - discriminate.
  - subst m. simpl. now rewrite substring_whole.
  - rewrite <- (IH n m) by lia. reflexivity.
Qed.

(** [endswith] holds of the strings that are something followed by the
    suffix. *)
Lemma endswith_spec (s suffix : string) :
  endswith s suffix = true <-> exists stem, s = (stem ++ suffix)%string.
Proof.
  unfold endswith. split.
  - intros H. apply andb_true_iff in H as [Hlen Hsub].
    apply Nat.leb_le in Hlen. apply String.eqb_eq in Hsub.
    exists (substring 0 (String.length s - String.length suffix) s).
    rewrite (substring_split s (String.length s - String.length suffix)
               (String.length suffix)) at 1 by lia.
    now rewrite Hsub.
  - intros [stem ->]. rewrite length_append. apply andb_true_iff. split.
    + apply Nat.leb_le. lia.
    + replace (String.length stem + String.length suffix - String.length suffix)
        with (String.length stem) by lia.
      rewrite substring_skip, substring_whole. apply String.eqb_refl.
Qed.

Section ChoiceOfFiles.

Context {Score : Type} {nltk : Nltk} {python : Python} {pypdf : PyPdf}
        {whoosh : Whoosh Score}.

(** X20. The files of a run are chosen by their lowercased name: a name is
    taken exactly when, lowercased, it is something followed by [.pdf];
    every file of the listing that is not is left out of the count the run
    announces. *)
Theorem pdf_files_by_lowercased_name (f : string) (names : list string) :
  (is_pdf f = true <-> exists stem, lower f = (stem ++ ".pdf")%string)
  /\ (forall g, In g (filter is_pdf names)
                <-> In g names /\ exists stem, lower g = (stem ++ ".pdf")%string)
  /\ length (filter is_pdf names) <= length names.
Proof.
  split; [apply endswith_spec|]. split.
  - intros g. rewrite filter_In. unfold is_pdf. now rewrite endswith_spec.
  - apply filter_length_le.
Qed.


(** X22. What a run commits is what the next search reads.  After a run
    that commits, the document of a file that yielded a text is in the
    snapshot of the index, and a search of the directory hands that
    snapshot to the searcher. *)
Theorem search_reads_what_was_committed books_dir index_dir (w : World Score)
    names fname text post query_string :
  isdir books_dir = true ->
  writer w = None ->
  listdir books_dir = Ok names ->
  In fname names ->
  is_pdf fname = true ->
  (forall f, In f names ->
             path_join books_dir f = path_join books_dir fname -> f = fname) ->
  extracted_text_of books_dir fname = Ok text ->
  nonempty text = true ->
  update_error (mkDocument (path_join books_dir fname) fname (normalize_text text))
  = None ->
  merge (snapshot_of w index_dir) (stage_all books_dir (filter is_pdf names) [])
  = Ok post ->
  exists w',
    index_pdfs books_dir index_dir w = (Ok tt, w')
    /\ In (mkDocument (path_join books_dir fname) fname (normalize_text text)) post
    /\ let found := search_summary post query_string (normalize_text query_string) in
       search_index index_dir query_string w'
       = (Ok tt,
          mkWorld (index_store w') (writer w') (status_log w' ++ fst found)
                  (results_log w' ++ [snd found]) (buttons_enabled w')).
Proof.
  intros Hdir Hwr Hls Hin Hpdf Hown Htext Hne Hup Hm.
  destruct (index_pdfs_run books_dir index_dir w Hdir Hwr)
    as (w' & Hrun & _ & Hix & _).
  exists w'. split; [exact Hrun|].
  unfold run_summary in Hix. rewrite Hls, Hm in Hix. simpl in Hix.
  split; [|exact (search_index_run _ _ _ _ Hix)].
  set (doc := mkDocument (path_join books_dir fname) fname (normalize_text text)).
  assert (Ho : outcome books_dir fname = Indexed doc).
  { unfold outcome. rewrite Htext, Hne. cbv zeta. fold doc.
    unfold doc at 1. now rewrite Hup. }
  assert (Hentries : entries (path doc) post = [doc]).
  { eapply merge_entries_single; [|exact Hm].
    apply (stage_all_entries_single books_dir _ fname doc [] Ho).
    - intros f Hf. apply Hown. now apply filter_In in Hf as [Hf _].
    - left. now apply filter_In. }
  assert (Hdoc : In doc (entries (path doc) post))
    by (rewrite Hentries; now left).
  unfold entries in Hdoc. now apply filter_In in Hdoc as [Hdoc _].
Qed.

(** *** The number announced at the commit *)

Lemma upsert_new_length doc docs :
  (forall d, In d docs -> path d <> path doc) ->
  length (upsert schema doc docs) = length docs + 1.
Proof.
  intros Hnew. unfold upsert. simpl. rewrite length_app. simpl. f_equal.
  induction docs as [|d docs IH]; simpl; [reflexivity|].
  assert (Hd : has_path (path doc) d = false).
  { destruct (has_path (path doc) d) eqn:H; [|reflexivity].
    apply has_path_true in H. now destruct (Hnew d (or_introl eq_refl)). }
  rewrite Hd. simpl. f_equal. apply IH. intros d' Hin. apply Hnew. now right.
Qed.

Lemma stage_all_length books_dir files :
  forall docs,
    NoDup files ->
    (forall f g, In f files -> In g files ->
                 path_join books_dir f = path_join books_dir g -> f = g) ->
    (forall d f, In d docs -> In f files -> path d <> path_join books_dir f) ->
    length (stage_all books_dir files docs)
    = length docs
      + length (filter (fun f => is_indexed (outcome books_dir f)) files).
Proof.
  induction files as [|f rest IH]; intros docs Hnd Hinj Hfresh; simpl.
  - lia.
  - inversion Hnd as [|? ? Hnotin Hnd']; subst.
    assert (Hinj' : forall g h, In g rest -> In h rest ->
                      path_join books_dir g = path_join books_dir h -> g = h)
      by (intros; apply Hinj; auto; now right).
    unfold stage_file.
    destruct (outcome books_dir f) as [doc| |e] eqn:Ho; simpl.
    + rewrite IH; auto.
      * rewrite upsert_new_length; [lia|].
        intros d Hd. rewrite (outcome_indexed_path _ _ _ Ho).
        apply Hfresh; [exact Hd | now left].
      * intros d g Hd Hg. apply In_upsert in Hd as [-> | Hd].
        -- rewrite (outcome_indexed_path _ _ _ Ho). intros Heq.
           apply Hinj in Heq; [|now left | now right]. now subst.
        -- apply Hfresh; [exact Hd | now right].
    + rewrite IH; auto. intros; apply Hfresh; auto; now right.
    + rewrite IH; auto. intros; apply Hfresh; auto; now right.
Qed.

(** X23. The number of documents a run announces before it commits is the
    number of documents it has staged, and the first counter of the
    completion message, provided the listing names no file twice and no two
    names join to the same path. *)
Theorem commit_announces_the_staged_documents books_dir index_dir
    (w : World Score) names :
  isdir books_dir = true ->
  writer w = None ->
  listdir books_dir = Ok names ->
  NoDup names ->
  (forall f g, In f names -> In g names ->
               path_join books_dir f = path_join books_dir g -> f = g) ->
  let staged_docs := stage_all books_dir (filter is_pdf names) [] in
  exists w' new,
    index_pdfs books_dir index_dir w = (Ok tt, w')
    /\ status_log w' = status_log w ++ new
    /\ In (Committing (length staged_docs), Info) new
    /\ (forall i e, In (IndexingComplete i e, Success) new ->
                    i = length staged_docs).
Proof.
  intros Hdir Hwr Hls Hnd Hinj staged_docs.
  destruct (index_pdfs_run books_dir index_dir w Hdir Hwr)
    as (w' & Hrun & _ & _ & _ & Hsaid & _).
  exists w', (snd (run_summary books_dir (snapshot_of w index_dir))).
  split; [exact Hrun|]. split; [exact Hsaid|].
  unfold run_summary. rewrite Hls.
  set (all_files := filter is_pdf names) in *.
  destruct (count_all_counts books_dir all_files (mkCounters 0 0)) as [Hi _].
  simpl in Hi.
  assert (Hlen : length staged_docs
                 = indexed_files (count_all books_dir all_files (mkCounters 0 0))).
  { rewrite Hi. unfold staged_docs.
    rewrite stage_all_length; simpl; auto.
    - now apply NoDup_filter.
    - intros f g Hf Hg. apply Hinj.
      + now apply filter_In in Hf as [Hf _].
      + now apply filter_In in Hg as [Hg _]. }
  rewrite Hlen.
  destruct (merge _ _) as [post|e0]; simpl.
  - split.
    + right; right. apply in_or_app. left. apply in_or_app. right. now left.
    + intros i e [H | [H | Hin]]; try discriminate.
      apply in_app_or in Hin as [Hin | [H | []]].
      * exfalso. eapply no_completion_before_commit; [|reflexivity].
        right; right. exact Hin.
      * now injection H as <- <-.
  - split.
    + right; right. apply in_or_app. left. apply in_or_app. right. now left.
    + intros i e [H | [H | Hin]]; try discriminate.
      apply in_app_or in Hin as [Hin | [H | []]]; [|discriminate].
      exfalso. eapply no_completion_before_commit; [|reflexivity].
      right; right. exact Hin.
Qed.

End ChoiceOfFiles.

(** * More of the sample installation at work *)

Section MoreExamples.

Existing Instance sample_nltk.
Existing Instance sample_python.
Existing Instance sample_pypdf.
Existing Instance sample_whoosh.

Lemma index_pdfs_without_books_dir_witness :
  isdir "nowhere" = false
  /\ index_pdfs "nowhere" "whoosh_index" fresh_world
     = (Ok tt,
        mkWorld (index_store fresh_world) None
                [(BooksDirNotFound "nowhere", Error)] [] true).
Proof.
  split; [reflexivity|].
  destruct (index_pdfs_without_books_dir "nowhere" "whoosh_index" "dogs"
              fresh_world) as [Hrun _]; [reflexivity|].
  exact Hrun.
Defined.


Lemma only_pdf_files_are_indexed_witness :
  listdir "books" = Ok sample_listing
  /\ exists w',
       index_pdfs "books" "whoosh_index" fresh_world = (Ok tt, w')
       /\ forall d, In d (snapshot_of w' "whoosh_index") ->
                    is_pdf (filename d) = true.
Proof.
  split; [reflexivity|].
  destruct (only_pdf_files_are_indexed "books" "whoosh_index" fresh_world
              sample_listing) as (w' & Hrun & Hdocs); try reflexivity.
  exists w'. split; [exact Hrun|].
  intros d Hd. destruct (Hdocs d Hd) as [[] | (_ & Hpdf & _)]. exact Hpdf.
Defined.

Lemma untouched_paths_are_kept_witness :
  listdir "books" = Ok sample_listing
  /\ exists w',
       index_pdfs "books" "whoosh_index" stale_world = (Ok tt, w')
       /\ entries "books/gone.pdf" (snapshot_of w' "whoosh_index")
          = [mkDocument "books/gone.pdf" "gone.pdf" "old text"].
Proof.
  split; [reflexivity|].
  destruct (untouched_paths_are_kept "books" "whoosh_index" stale_world
              sample_listing "books/gone.pdf")
    as (w' & Hrun & Hkept); try reflexivity.
  - intros f [<- | [<- | [<- | [<- | [<- | []]]]]] _ Hp;
      vm_compute in Hp; discriminate Hp.
  - exists w'. split; [exact Hrun | exact Hkept].
Defined.

Lemma progress_counts_witness :
  listdir "books" = Ok sample_listing
  /\ exists w' new,
       index_pdfs "books" "whoosh_index" fresh_world = (Ok tt, w')
       /\ status_log w' = new
       /\ filter is_progress new
          = [(IndexingFile 1 4 "a.pdf", Info); (IndexingFile 2 4 "B.PDF", Info);
             (IndexingFile 3 4 "empty.pdf", Info);
             (IndexingFile 4 4 "broken.pdf", Info)].
Proof.
  split; [reflexivity|].
  destruct (progress_counts_the_pdf_files "books" "whoosh_index" fresh_world
              sample_listing) as (w' & new & Hrun & Hsaid & Hprog);
    try reflexivity.
  exists w', new. repeat split; assumption.
Defined.

Lemma every_failure_is_reported_witness :
  listdir "books" = Ok sample_listing
  /\ exists w' new i e,
       index_pdfs "books" "whoosh_index" fresh_world = (Ok tt, w')
       /\ status_log w' = new
       /\ In (IndexingComplete i e, Success) new
       /\ length (filter is_error new) = e
       /\ In (NoTextExtracted "empty.pdf", Error) new
       /\ In (ErrorIndexing "broken.pdf" (OtherException "EOF marker not found"),
              Error) new.
Proof.
  split; [reflexivity|].
  destruct (every_failure_is_reported "books" "whoosh_index" fresh_world
              sample_listing
              [mkDocument "books/a.pdf" "a.pdf" "dog run";
               mkDocument "books/B.PDF" "B.PDF" "agre"])
    as (w' & new & i & e & Hrun & Hsaid & Hdone & Hcount & Hskip & Hfail);
    try (vm_compute; reflexivity).
  exists w', new, i, e. repeat split; try assumption.
  - apply Hskip; [do 3 right; now left | reflexivity | reflexivity].
  - apply Hfail; [do 4 right; now left | reflexivity | reflexivity].
Defined.


Lemma paths_stay_unique_witness :
  (forall p, length (entries p (snapshot_of indexed_world "whoosh_index")) <= 1)
  /\ exists w',
       index_pdfs "books" "whoosh_index" indexed_world = (Ok tt, w')
       /\ length (entries "books/a.pdf" (snapshot_of w' "whoosh_index")) <= 1.
Proof.
  assert (Huniq : forall p,
             length (entries p (snapshot_of indexed_world "whoosh_index")) <= 1).
  { intros p. simpl. destruct (has_path p _); simpl; lia. }
  split; [exact Huniq|].
  destruct (paths_stay_unique "books" "whoosh_index" indexed_world)
    as (w' & Hrun & Hafter); try reflexivity; [exact Huniq|].
  exists w'. split; [exact Hrun | apply Hafter].
Defined.

Lemma text_of_a_readable_file_witness :
  PdfReader (path_join "books" "a.pdf") = Ok (map Ok [Some "Dogs running"; None])
  /\ extracted_text_of "books" "a.pdf" = Ok ("Dogs running" ++ newline)%string.
Proof.
  split; [reflexivity|].
  destruct (text_of_a_readable_file (Score := nat) (whoosh := sample_whoosh)
              "books" "a.pdf" [Some "Dogs running"; None])
    as [Htext _]; [reflexivity|].
  exact Htext.
Defined.

Lemma torn_file_is_an_error_witness :
  PdfReader (PyPdf := torn_pypdf) (path_join "books" "a.pdf")
  = Ok (map Ok [Some "Dogs"] ++
        Raise (OtherException "bad page") :: [Ok (Some "run")])
  /\ index_file (pypdf := torn_pypdf) "books" 1 0 "a.pdf" (mkCounters 0 0)
       busy_world
     = (Ok (mkCounters 0 1),
        mkWorld (index_store busy_world) (Some (mkWriter "whoosh_index" []))
                [(IndexingFile 1 1 "a.pdf", Info);
                 (ErrorIndexing "a.pdf" (OtherException "bad page"), Error)]
                [] true).
Proof.
  split; [reflexivity|]. unfold busy_world. cbn [index_store].
  apply (torn_file_is_an_error (pypdf := torn_pypdf) "books" "a.pdf"
           [Some "Dogs"] (OtherException "bad page") [Ok (Some "run")]).
  reflexivity.
Defined.

Lemma text_without_tokens_witness :
  extracted_text_of (pypdf := blank_pypdf) "books" "a.pdf"
  = Ok (" " ++ newline)%string
  /\ word_tokenize (" " ++ newline) = []
  /\ index_file (pypdf := blank_pypdf) "books" 1 0 "a.pdf" (mkCounters 0 0)
       busy_world
     = (Ok (mkCounters 1 0),
        mkWorld (index_store busy_world)
                (Some (mkWriter "whoosh_index"
                         [mkDocument "books/a.pdf" "a.pdf" EmptyString]))
                [(IndexingFile 1 1 "a.pdf", Info)] [] true).
Proof.
  split; [reflexivity|]. split; [reflexivity|].
  exact (text_without_tokens_is_indexed
           (Score := nat) (nltk := sample_nltk) (python := sample_python)
           (pypdf := blank_pypdf) (whoosh := sample_whoosh)
           "books" "a.pdf" (" " ++ newline)%string
           eq_refl eq_refl eq_refl eq_refl
           1 0 (mkCounters 0 0) (fun _ => None) "whoosh_index" [] [] [] true).
Defined.

Lemma results_mirror_the_hits_witness :
  index_store searched_world "whoosh_index"
  = Some [mkDocument "books/a.pdf" "a.pdf" "dog run";
          mkDocument "books/B.PDF" "B.PDF" EmptyString]
  /\ search_index (whoosh := finding_whoosh) "whoosh_index" "Dogs" searched_world
     = (Ok tt,
        mkWorld (index_store searched_world) None
                [(RunningQuery "Dogs", Info); (FoundResults 2, Info)]
                [[mkSearchResult "a.pdf" "books/a.pdf" 1 "dog run";
                  mkSearchResult "B.PDF" "books/B.PDF" 1 no_snippet]]
                true).
Proof.
  split; [reflexivity|].
  apply (results_mirror_the_hits (whoosh := finding_whoosh)
           "whoosh_index" "Dogs" searched_world
           [mkDocument "books/a.pdf" "a.pdf" "dog run";
            mkDocument "books/B.PDF" "B.PDF" EmptyString]
           "dog" 2
           [mkHit (mkDocument "books/a.pdf" "a.pdf" "dog run") 1 (Ok "dog run");
            mkHit (mkDocument "books/B.PDF" "B.PDF" EmptyString) 1
                  (Ok EmptyString)]
           ["dog run"; EmptyString]); reflexivity.
Defined.

Lemma failed_search_delivers_nothing_witness :
  index_store searched_world "whoosh_index"
  = Some [mkDocument "books/a.pdf" "a.pdf" "dog run";
          mkDocument "books/B.PDF" "B.PDF" EmptyString]
  /\ search_index (whoosh := torn_whoosh) "whoosh_index" "Dogs" searched_world
     = (Ok tt,
        mkWorld (index_store searched_world) None
                [(RunningQuery "Dogs", Info); (FoundResults 2, Info);
                 (ErrorDuringSearch (OtherException "bad fragment"), Error)]
                [[]] true).
Proof.
  split; [reflexivity|].
  destruct (failed_search_delivers_nothing (whoosh := torn_whoosh)
              "whoosh_index" "Dogs" searched_world
              [mkDocument "books/a.pdf" "a.pdf" "dog run";
               mkDocument "books/B.PDF" "B.PDF" EmptyString])
    as (_ & _ & Hhl); [reflexivity|].
  apply (Hhl "dog" 2
           [mkHit (mkDocument "books/a.pdf" "a.pdf" "dog run") 1 (Ok "dog run")]
           (mkHit (mkDocument "books/B.PDF" "B.PDF" EmptyString) 1
                  (Raise (OtherException "bad fragment")))
           [] ["dog run"] (OtherException "bad fragment")); reflexivity.
Defined.

Lemma snippets_are_never_empty_witness :
  let w' := snd (search_index (whoosh := finding_whoosh)
                   "whoosh_index" "Dogs" searched_world) in
  exists results,
    results_log w' = [results]
    /\ length results = 2
    /\ Forall (fun r => nonempty (res_highlight r) = true) results.
Proof.
  intros w'.
  destruct (snippets_are_never_empty (whoosh := finding_whoosh)
              "whoosh_index" "Dogs" searched_world w')
    as (results & Hlog & Hall & _); [reflexivity|].
  exists results. split; [exact Hlog|]. split; [|exact Hall].
  vm_compute in Hlog. injection Hlog as <-. reflexivity.
Defined.

Lemma normalization_ignores_case_witness :
  map lower (word_tokenize "Dogs RUNNING") = map lower (word_tokenize "dogs running")
  /\ normalize_text "Dogs RUNNING" = normalize_text "dogs running".
Proof.
  split; [reflexivity|].
  apply (normalization_ignores_case "Dogs RUNNING" "dogs running").
  reflexivity.
Defined.

Lemma search_reads_what_was_committed_witness :
  extracted_text_of "books" "a.pdf" = Ok ("Dogs running" ++ newline)%string
  /\ exists w',
       index_pdfs "books" "whoosh_index" fresh_world = (Ok tt, w')
       /\ In (mkDocument "books/a.pdf" "a.pdf" "dog run")
             [mkDocument "books/a.pdf" "a.pdf" "dog run";
              mkDocument "books/B.PDF" "B.PDF" "agre"].
Proof.
  split; [reflexivity|].
  destruct (search_reads_what_was_committed "books" "whoosh_index" fresh_world
              sample_listing "a.pdf" ("Dogs running" ++ newline)%string
              [mkDocument "books/a.pdf" "a.pdf" "dog run";
               mkDocument "books/B.PDF" "B.PDF" "agre"] "dogs")
    as (w' & Hrun & Hdoc & _); try (vm_compute; reflexivity).
  - now left.
  - intros f [<- | [<- | [<- | [<- | [<- | []]]]]]; intros Hp;
      try reflexivity; vm_compute in Hp; discriminate Hp.
  - exists w'. split; [exact Hrun | exact Hdoc].
Defined.

Lemma commit_announces_witness :
  listdir "books" = Ok sample_listing
  /\ NoDup sample_listing
  /\ exists w' new,
       index_pdfs "books" "whoosh_index" fresh_world = (Ok tt, w')
       /\ status_log w' = new
       /\ In (Committing 2, Info) new.
Proof.
  assert (Hnd : NoDup sample_listing).
  { unfold sample_listing.
    repeat (constructor;
            [intros H; repeat (destruct H as [H | H]; [discriminate H|]);
             exact H|]).
    constructor. }
  split; [reflexivity|]. split; [exact Hnd|].
  destruct (commit_announces_the_staged_documents "books" "whoosh_index"
              fresh_world sample_listing)
    as (w' & new & Hrun & Hsaid & Hcommit & _); try reflexivity;
    [exact Hnd | |].
  - intros f g Hf Hg Hp.
    destruct Hf as [<- | [<- | [<- | [<- | [<- | []]]]]];
      destruct Hg as [<- | [<- | [<- | [<- | [<- | []]]]]];
      try reflexivity; vm_compute in Hp; discriminate Hp.
  - exists w', new. repeat split; assumption.
Defined.

(** A second writer is refused: the indexing worker raises, and the
    buttons are enabled all the same. *)
Example indexing_with_open_writer :
  start_indexing_thread "books" busy_world
  = (Raise (OtherException "LockError"),
     mkWorld (fun d => if String.eqb d "whoosh_index" then Some []
                       else None)
             (Some (mkWriter "whoosh_index" []))
             [(StartingIndexingProcess, Info)] [] true).
Proof. reflexivity. Qed.

End MoreExamples.
